(** * Motion-triggered recording: a shallow embedding of [motion_detector.py]

    The development follows the class [MotionDetector]: the histogram
    difference estimator, the difference history, the recording state
    machine inside [__loop], and the hand-off of a finished recording
    ([__upload_file], [__send_email], [__delete_recording]).

    Conventions.
    - A [datetime] is its number of microseconds since the epoch (the
      resolution of [datetime.datetime]).  [(a - b).total_seconds()] is a
      float, the number of microseconds divided by 10^6 and rounded:
      [> 5.0] is [5000000 < a - b], and [>= n] is [n * 1000000 <= a - b]
      as long as [n] is short of 2^53 microseconds (see
      [total_seconds_ge] for the caps beyond).
    - A Python float is the rational it denotes ([Q]).  [sum / len(hist)]
      divides an integer by 256, which is exact in binary floating point,
      so nothing is lost for the scores, and comparisons of floats are
      exact.  The sum and the quotient behind the average of the history
      are rounded; they are not computed here but taken from the platform
      ([float_add], [float_div]).
    - Methods keep their Python names, including the leading underscores of
      private members. *)

From Stdlib Require Import ZArith QArith List String Bool Lia Permutation.
From Stdlib Require Import Strings.Byte.
Import ListNotations.

Set Implicit Arguments.

Local Open Scope Z_scope.

(** ** Values of the program *)

Definition time := Z.

Definition seconds (n : Z) : Z := n * 1000000.

(** The exception classes the program meets.  All of them derive from
    [Exception]; the handler of [__send_email] names the first two. *)
Inductive exn : Type :=
| SMTPException
| socket_timeout
| OSError
| ValueError
| AttributeError
| TypeError
| ZeroDivisionError
| RuntimeError.

(** A one-dimensional [uint8] buffer, and the two-dimensional array that
    [reshape(h, w)] makes of it (shape and row-major data, as numpy has it). *)
Definition buffer := list byte.

Record Frame : Type := mkFrame {
  rows : nat;
  cols : nat;
  pixels : list byte
}.

(** What the logger is given: the text of each f-string, with its holes. *)
Inductive Message : Type :=
| StartingNewRecording (t : time)
| MotionDetected (diff : Q)
| MaxRecordingTimeExceeded (elapsed : Z)
| MaxTimeSinceLastMotionExceeded
| MotionNoLongerDetected (diff : Q)
| WritingFile (path : string)
| WritingSnapshotFile (path : string)
| DeletingLocalFile (path : string)
| SentEmail (path : string)
| FailedToSendEmail (path : string) (e : exn)
| LoopError (e : exn)
| DiffStats (iterations : nat) (avg mn mx : Q).

Inductive Level : Type :=
| Info | Error | MovementStart | MovementEnd | DebugAsInfo.

(** Everything the detector does to the outside world, in order. *)
Inductive Event : Type :=
| Log (lvl : Level) (m : Message)
| CaptureBuffer (name : string)
| SetFileOutput (path : string)
| OutputStart
| OutputStop
| CaptureSnapshot (path : string)
| OpenAttachment (path : string)
| SmtpSend (server : string) (port : Z) (user password recipient : option string)
           (attachment : string)
| OsRemove (path : string).

(** ** The detector object *)

(** The command line arguments the detector copies into itself and never
    assigns again. *)
Record Args : Type := mkArgs {
  lores_width : nat;
  lores_height : nat;
  min_pixel_diff : Q;
  capture_lores : bool;
  recording_dir : string;
  delete_local_recordings : bool;
  snapshot_only : bool;
  max_recording_length_seconds : Z;
  recipient : option string;
  email_username : option string;
  email_password : option string;
  smtp_server : string;
  smtp_port : Z
}.

Record MotionDetector : Type := mkMotionDetector {
  args : Args;
  __encoding : bool;
  __start_time_of_last_recording : option time;
  __time_of_last_motion_detection : option time;
  __display_interval : Z;
  __tick : Z;
  __diff_history : list Q;
  __diff_history_count : Z;
  __diff_min : Q;
  __diff_max : Q;
  __diff_average : Q
}.

Definition __MAX_TIME_SINCE_LAST_MOTION_DETECTION_SECONDS : Z := 5.

(** [MotionDetector.__init__], without the camera set-up. *)
Definition __init__ (a : Args) : MotionDetector :=
  {| args := a;
     __encoding := false;
     __start_time_of_last_recording := None;
     __time_of_last_motion_detection := None;
     __display_interval := 100;
     __tick := 0;
     __diff_history := [];
     __diff_history_count := 1000;
     __diff_min := 9999;
     __diff_max := 0;
     __diff_average := 0 |}.

Definition set_encoding (b : bool) (s : MotionDetector) : MotionDetector :=
  mkMotionDetector (args s) b (__start_time_of_last_recording s)
    (__time_of_last_motion_detection s) (__display_interval s) (__tick s)
    (__diff_history s) (__diff_history_count s) (__diff_min s) (__diff_max s)
    (__diff_average s).

Definition set_start_time_of_last_recording (t : option time) (s : MotionDetector)
  : MotionDetector :=
  mkMotionDetector (args s) (__encoding s) t
    (__time_of_last_motion_detection s) (__display_interval s) (__tick s)
    (__diff_history s) (__diff_history_count s) (__diff_min s) (__diff_max s)
    (__diff_average s).

Definition set_time_of_last_motion_detection (t : option time) (s : MotionDetector)
  : MotionDetector :=
  mkMotionDetector (args s) (__encoding s) (__start_time_of_last_recording s)
    t (__display_interval s) (__tick s)
    (__diff_history s) (__diff_history_count s) (__diff_min s) (__diff_max s)
    (__diff_average s).

Definition set_tick (n : Z) (s : MotionDetector) : MotionDetector :=
  mkMotionDetector (args s) (__encoding s) (__start_time_of_last_recording s)
    (__time_of_last_motion_detection s) (__display_interval s) n
    (__diff_history s) (__diff_history_count s) (__diff_min s) (__diff_max s)
    (__diff_average s).

Definition set_diff_history (h : list Q) (s : MotionDetector) : MotionDetector :=
  mkMotionDetector (args s) (__encoding s) (__start_time_of_last_recording s)
    (__time_of_last_motion_detection s) (__display_interval s) (__tick s)
    h (__diff_history_count s) (__diff_min s) (__diff_max s)
    (__diff_average s).

Definition set_diff_stats (mn mx avg : Q) (s : MotionDetector) : MotionDetector :=
  mkMotionDetector (args s) (__encoding s) (__start_time_of_last_recording s)
    (__time_of_last_motion_detection s) (__display_interval s) (__tick s)
    (__diff_history s) (__diff_history_count s) mn mx avg.

(** ** The outside world during one pass of the loop

    Each pass of [while True] calls every collaborator at most once, so one
    record says what each call does on this pass: [None] is a normal
    return, [Some e] the exception it raises.  [now_at k] is the value of the
    [k]-th call of [datetime.datetime.now()] in the pass, and [isoformat]
    is the text [datetime.isoformat()] gives for a time.

    The exchange with the mail server has three steps that can fail:
    [smtplib.SMTP_SSL(...)], which connects ([smtp_connect_raises]);
    [login] and [sendmail] inside the [with] block ([smtp_raises]); and the
    QUIT that [SMTP.__exit__] sends when the block is left
    ([smtp_quit_raises]).

    The last three fields are the float arithmetic of the platform where
    the embedding does not compute it: the sum and the quotient of two
    floats, and [float_total_seconds_ge elapsed cap], the test
    [total_seconds() >= cap] on the float that a difference of [elapsed]
    microseconds gives. *)
Record Pass : Type := mkPass {
  now_at : nat -> time;
  isoformat : time -> string;
  capture_buffer : exn + buffer;
  fileoutput_raises : option exn;
  output_start_raises : option exn;
  output_stop_raises : option exn;
  snapshot_raises : option exn;
  open_raises : option exn;
  smtp_connect_raises : option exn;
  smtp_raises : option exn;
  smtp_quit_raises : option exn;
  remove_raises : option exn;
  float_add : Q -> Q -> Q;
  float_div : Q -> Q -> Q;
  float_total_seconds_ge : Z -> Z -> bool
}.

Record World : Type := mkWorld {
  self : MotionDetector;
  reads : nat;
  trace : list Event
}.

(** ** A state and exception monad

    A computation reads the pass, changes the world and either returns or
    raises; what it changed before raising stays changed, as in Python. *)
Inductive result (A : Type) : Type :=
| Returned (a : A)
| Raised (e : exn).

Arguments Raised {A} e.

Definition M (A : Type) : Type := Pass -> World -> result A * World.

Definition ret {A} (a : A) : M A := fun _ w => (Returned a, w).

Definition bind {A B} (c : M A) (k : A -> M B) : M B :=
  fun p w =>
    match c p w with
    | (Returned a, w') => k a p w'
    | (Raised e, w') => (Raised e, w')
    end.

Definition raise {A} (e : exn) : M A := fun _ w => (Raised e, w).

Notation "x <- c ;; k" := (bind c (fun x => k))
  (at level 61, c at next level, right associativity).
Notation "c ;;; k" := (bind c (fun _ => k))
  (at level 61, right associativity).

Definition get_self : M MotionDetector := fun _ w => (Returned (self w), w).

Definition modify_self (f : MotionDetector -> MotionDetector) : M unit :=
  fun _ w => (Returned tt, mkWorld (f (self w)) (reads w) (trace w)).

Definition emit (e : Event) : M unit :=
  fun _ w => (Returned tt, mkWorld (self w) (reads w) (trace w ++ [e])).

Definition ask {A} (f : Pass -> A) : M A := fun p w => (Returned (f p), w).

(** [datetime.datetime.now()] *)
Definition now : M time :=
  fun p w => (Returned (now_at p (reads w)),
              mkWorld (self w) (S (reads w)) (trace w)).

(** A call of a collaborator: it is recorded, then returns or raises. *)
Definition call (e : Event) (outcome : Pass -> option exn) : M unit :=
  emit e ;;;
  r <- ask outcome ;;
  match r with
  | None => ret tt
  | Some x => raise x
  end.

(** A step of a collaborator whose call is already recorded: it returns or
    raises. *)
Definition outcome_of (outcome : Pass -> option exn) : M unit :=
  r <- ask outcome ;;
  match r with
  | None => ret tt
  | Some x => raise x
  end.

(** [with manager: body], once the manager is entered: [exit] runs when the
    body returns and when it raises.  An exception of [exit] replaces the
    one of the body; otherwise the outcome of the body stands. *)
Definition with_exit {A} (body : M A) (exit : M unit) : M A :=
  fun p w =>
    let (r, w') := body p w in
    match exit p w' with
    | (Returned _, w'') => (r, w'')
    | (Raised e, w'') => (Raised e, w'')
    end.

(** [try: body except classes: handler] *)
Definition try_except {A} (body : M A) (catches : exn -> bool)
  (handler : exn -> M A) : M A :=
  fun p w =>
    match body p w with
    | (Returned a, w') => (Returned a, w')
    | (Raised e, w') => if catches e then handler e p w' else (Raised e, w')
    end.

Definition when (b : bool) (c : M unit) : M unit := if b then c else ret tt.

(** ** Difference estimator *)

(** [Image.fromarray(frame).histogram()] of a [uint8] array: one count per
    intensity, 256 bins. *)
Definition histogram (f : Frame) : list Z :=
  map (fun i => Z.of_nat (count_occ Nat.eq_dec (map Byte.to_nat (pixels f)) i))
      (seq 0 256).

Definition sum (l : list Z) : Z := fold_left Z.add l 0.

Definition __calculate_histogram_difference (current_frame previous_frame : Frame) : Q :=
  let current_hist := histogram current_frame in
  let previous_hist := histogram previous_frame in
  (inject_Z (sum (map (fun cp => Z.abs (fst cp - snd cp))
                      (combine current_hist previous_hist)))
   / inject_Z (Z.of_nat (List.length current_hist)))%Q.

(** ** Logging *)

Definition log_info (m : Message) : M unit := emit (Log Info m).
Definition log_error (m : Message) : M unit := emit (Log Error m).
Definition log_debug_as_info (m : Message) : M unit := emit (Log DebugAsInfo m).
Definition log_movement_start (m : Message) : M unit := emit (Log MovementStart m).
Definition log_movement_end (m : Message) : M unit := emit (Log MovementEnd m).

Definition log_at_interval (m : Message) : M unit :=
  s <- get_self ;;
  if __tick s =? __display_interval s then
    log_debug_as_info m ;;;
    modify_self (set_tick 0)
  else
    modify_self (set_tick (__tick s + 1)).

(** ** Difference history *)

Definition Qltb (x y : Q) : bool := negb (Qle_bool y x).

(** The [for value in self.__diff_history] loop of [display_diff_stats]:
    running minimum, maximum and sum; [add] is the addition of floats. *)
Fixpoint diff_stats_loop (add : Q -> Q -> Q) (l : list Q) (mn mx diff_sum : Q)
  : Q * Q * Q :=
  match l with
  | [] => (mn, mx, diff_sum)
  | value :: l' =>
      let mn' := if Qltb value mn then value else mn in
      let mx' := if Qltb mx value then value else mx in
      diff_stats_loop add l' mn' mx' (add diff_sum value)
  end.

(** On an empty history [diff_sum / len(...)] is [0 / 0] on integers, a
    [ZeroDivisionError]; otherwise it is a division of floats. *)
Definition display_diff_stats : M unit :=
  s <- get_self ;;
  add <- ask float_add ;;
  div <- ask float_div ;;
  let '(mn, mx, diff_sum) := diff_stats_loop add (__diff_history s) 9999%Q 0%Q 0%Q in
  let iterations := List.length (__diff_history s) in
  match iterations with
  | O =>
      modify_self (fun s => set_diff_stats mn mx (__diff_average s) s) ;;;
      raise ZeroDivisionError
  | _ =>
      let avg := div diff_sum (inject_Z (Z.of_nat iterations)) in
      modify_self (set_diff_stats mn mx avg) ;;;
      log_at_interval (DiffStats iterations avg mn mx)
  end.

(** The [for value in self.__diff_history] loop of [store_diff_history]:
    [pos] counts the entries seen, and the entries at positions
    [1 .. count - 1] are appended to [new_diff_history]. *)
Fixpoint copy_positions (count pos : Z) (l new_diff_history : list Q) : list Q :=
  match l with
  | [] => new_diff_history
  | value :: l' =>
      copy_positions count (pos + 1) l'
        (if (1 <=? pos) && (pos <=? count - 1)
         then new_diff_history ++ [value]
         else new_diff_history)
  end.

Definition store_diff_history (diff : Q) : M unit :=
  s <- get_self ;;
  (if Z.of_nat (List.length (__diff_history s)) =? __diff_history_count s then
     let new_diff_history :=
       copy_positions (__diff_history_count s) 0 (__diff_history s) [diff] in
     modify_self (set_diff_history ([] ++ new_diff_history))
   else
     modify_self (set_diff_history (__diff_history s ++ [diff]))) ;;;
  display_diff_stats.

(** ** Recording state machine *)

(** [delta.total_seconds() >= cap] for a difference of [elapsed]
    microseconds.  The float is [elapsed / 10^6] rounded to the nearest
    double.  Below a cap of fewer than 2^53 microseconds (some 285 years)
    the doubles are less than two microseconds apart, so a whole number of
    microseconds short of the cap does not round up to it, and the test is
    the comparison of the microseconds.  For longer caps the rounding
    decides, and the platform is asked. *)
Definition total_seconds_ge (p : Pass) (elapsed cap : Z) : bool :=
  if seconds cap <? 2 ^ 53 then seconds cap <=? elapsed
  else float_total_seconds_ge p elapsed cap.

Definition __is_max_recording_length_exceeded : M bool :=
  s <- get_self ;;
  if 0 <? max_recording_length_seconds (args s) then
    match __start_time_of_last_recording s with
    | None => ret false
    | Some start =>
        t <- now ;;
        ask (fun p => total_seconds_ge p (t - start)
                        (max_recording_length_seconds (args s)))
    end
  else ret false.

Definition __is_max_time_since_last_motion_detection_exceeded : M bool :=
  s <- get_self ;;
  if __encoding s then
    match __time_of_last_motion_detection s with
    | None => ret false
    | Some last =>
        t <- now ;;
        ret (seconds __MAX_TIME_SINCE_LAST_MOTION_DETECTION_SECONDS <? t - last)
    end
  else ret false.

(** [f"{dir}{start.isoformat()}.h264"]; [None.isoformat()] is an
    [AttributeError]. *)
Definition __get_recording_file_path : M string :=
  s <- get_self ;;
  match __start_time_of_last_recording s with
  | None => raise AttributeError
  | Some start =>
      iso <- ask isoformat ;;
      ret (recording_dir (args s) ++ iso start ++ ".h264")%string
  end.

Definition __get_snapshot_file_path : M string :=
  s <- get_self ;;
  match __start_time_of_last_recording s with
  | None => raise AttributeError
  | Some start =>
      iso <- ask isoformat ;;
      ret (recording_dir (args s) ++ iso start ++ ".jpeg")%string
  end.

Definition __start_recording : M unit :=
  path <- __get_recording_file_path ;;
  call (SetFileOutput path) fileoutput_raises ;;;
  call OutputStart output_start_raises ;;;
  modify_self (set_encoding true).

(** [capture_request], [save] and [release] are one call of the camera. *)
Definition __create_snapshot : M unit :=
  path <- __get_snapshot_file_path ;;
  call (CaptureSnapshot path) snapshot_raises.

Definition __write_snapshot_to_file : M unit :=
  file_path <- __get_snapshot_file_path ;;
  log_info (WritingSnapshotFile file_path) ;;;
  __create_snapshot.

(** ** Handing a finished recording off *)

Definition __delete_recording (file_path : string) : M unit :=
  s <- get_self ;;
  when (delete_local_recordings (args s))
    (log_info (DeletingLocalFile file_path) ;;;
     call (OsRemove file_path) remove_raises).

(** The classes named by [except (smtplib.SMTPException, socket.timeout)]. *)
Definition send_email_catches (e : exn) : bool :=
  match e with
  | SMTPException | socket_timeout => true
  | _ => false
  end.

(** The event [SmtpSend] records the exchange with the server, from
    [smtplib.SMTP_SSL(...)] on.  Inside the [with] block [login] and
    [sendmail] come first and the line about the sent mail last; leaving
    the block, with or without an exception, sends QUIT. *)
Definition __send_email (file_path : string) : M unit :=
  try_except
    (s <- get_self ;;
     _ <- now ;;
     call (OpenAttachment file_path) open_raises ;;;
     call (SmtpSend (smtp_server (args s)) (smtp_port (args s))
                    (email_username (args s)) (email_password (args s))
                    (recipient (args s)) file_path) smtp_connect_raises ;;;
     with_exit
       (outcome_of smtp_raises ;;;
        log_info (SentEmail file_path))
       (outcome_of smtp_quit_raises))
    send_email_catches
    (fun e => log_error (FailedToSendEmail file_path e)).

(** Truth value of an optional command line string: [None] and the empty
    string are false. *)
Definition truthy (o : option string) : bool :=
  match o with
  | None => false
  | Some EmptyString => false
  | Some _ => true
  end.

Definition __upload_file (file_path : string) : M unit :=
  s <- get_self ;;
  when (truthy (email_username (args s)) && truthy (recipient (args s))
        && truthy (email_password (args s)))
    (__send_email file_path) ;;;
  __delete_recording file_path.

Definition __write_recording_to_file : M unit :=
  __write_snapshot_to_file ;;;
  file_path <- __get_recording_file_path ;;
  snapshot_path <- __get_snapshot_file_path ;;
  log_info (WritingFile file_path) ;;;
  call OutputStop output_stop_raises ;;;
  s <- get_self ;;
  (if snapshot_only (args s)
   then __upload_file snapshot_path
   else __upload_file file_path) ;;;
  modify_self (set_encoding false) ;;;
  modify_self (set_start_time_of_last_recording None).

(** ** The loop *)

(** [a and b], evaluating [b] only when [a] is true. *)
Definition and_then (a b : M bool) : M bool :=
  x <- a ;; if x then b else ret false.

Definition not_ (a : M bool) : M bool := x <- a ;; ret (negb x).

(** The condition of the [if] at line 165, evaluated from left to right:
    the score is above the threshold, and the recording length is not
    exceeded, and no recording is going on. *)
Definition start_condition (hist_diff : Q) : M bool :=
  s <- get_self ;;
  and_then (ret (Qltb (min_pixel_diff (args s)) hist_diff))
    (and_then (not_ __is_max_recording_length_exceeded)
              (s' <- get_self ;; ret (negb (__encoding s')))).

(** Lines 166 to 171: the branch taken when the condition holds. *)
Definition start_branch (hist_diff : Q) : M unit :=
  s <- get_self ;;
  when (negb (__encoding s))
    (t <- now ;;
     modify_self (set_start_time_of_last_recording (Some t)) ;;;
     log_info (StartingNewRecording t) ;;;
     __start_recording) ;;;
  t <- now ;;
  modify_self (set_time_of_last_motion_detection (Some t)) ;;;
  log_movement_start (MotionDetected hist_diff).

(** Lines 172 to 180: the [elif] and the [else]. *)
Definition stop_branches (hist_diff : Q) : M unit :=
  exceeded <- __is_max_recording_length_exceeded ;;
  if exceeded then
    t <- now ;;
    s <- get_self ;;
    match __start_time_of_last_recording s with
    | None => raise TypeError
    | Some start => log_info (MaxRecordingTimeExceeded (t - start))
    end ;;;
    __write_recording_to_file
  else
    idle <- __is_max_time_since_last_motion_detection_exceeded ;;
    when idle
      (log_info MaxTimeSinceLastMotionExceeded ;;;
       log_movement_end (MotionNoLongerDetected hist_diff) ;;;
       __write_recording_to_file).

(** Lines 165 to 180 of [__loop]: what one pass does with the score of the
    frame it captured. *)
Definition loop_tick (hist_diff : Q) : M unit :=
  c <- start_condition hist_diff ;;
  if c then start_branch hist_diff else stop_branches hist_diff.

(** Lines 164 to 180: the score is stored, then drives the state machine. *)
Definition on_score (hist_diff : Q) : M unit :=
  store_diff_history hist_diff ;;;
  loop_tick hist_diff.

(** [self.__picam2.capture_buffer(name)] *)
Definition capture (name : string) : M buffer :=
  emit (CaptureBuffer name) ;;;
  r <- ask capture_buffer ;;
  match r with
  | inl e => raise e
  | inr b => ret b
  end.

(** [buf[:w * h].reshape(h, w)]: a [ValueError] unless the slice has exactly
    [h * w] elements. *)
Definition slice_reshape (w h : nat) (buf : buffer) : M Frame :=
  let sl := firstn (w * h) buf in
  if Nat.eqb (List.length sl) (h * w) then ret (mkFrame h w sl)
  else raise ValueError.

(** The body of [try:] in [__loop]; it returns the new [previous_frame]. *)
Definition loop_body (previous_frame : option Frame) : M (option Frame) :=
  s <- get_self ;;
  let w := lores_width (args s) in
  let h := lores_height (args s) in
  buf <- capture (if capture_lores (args s) then "lores" else "main")%string ;;
  current_frame <- slice_reshape w h buf ;;
  match previous_frame with
  | Some previous =>
      on_score (__calculate_histogram_difference current_frame previous)
  | None => ret tt
  end ;;;
  ret (Some current_frame).

(** One pass of [while True]: [except Exception] logs and goes on; the
    local variable [previous_frame] is assigned only when the body ends
    without raising. *)
Definition loop_pass (previous_frame : option Frame) : M (option Frame) :=
  try_except (loop_body previous_frame) (fun _ => true)
    (fun e => log_error (LoopError e) ;;; ret previous_frame).

Definition begin_pass (w : World) : World := mkWorld (self w) 0 (trace w).

(** The first passes of [__loop], one per element of [passes]. *)
Fixpoint __loop (passes : list Pass) (previous_frame : option Frame) (w : World)
  : result (option Frame) * World :=
  match passes with
  | [] => (Returned previous_frame, w)
  | p :: rest =>
      match loop_pass previous_frame p (begin_pass w) with
      | (Returned previous_frame', w') => __loop rest previous_frame' w'
      | (Raised e, w') => (Raised e, w')
      end
  end.

(** The loop fed with scores instead of frames: one pass and one score per
    element, under the same [except Exception]. *)
Definition score_pass (hist_diff : Q) : M unit :=
  try_except (on_score hist_diff) (fun _ => true)
    (fun e => log_error (LoopError e)).

Fixpoint feed (ticks : list (Pass * Q)) (w : World) : World :=
  match ticks with
  | [] => w
  | (p, hist_diff) :: rest => feed rest (snd (score_pass hist_diff p (begin_pass w)))
  end.

(** * Statements: views of a world, relations, sample inputs *)

(** A detector just built, before the first pass. *)
Definition fresh (a : Args) : World := mkWorld (__init__ a) 0 [].

(** The events a computation added to the trace. *)
Definition emitted (before after : World) : list Event :=
  skipn (List.length (trace before)) (trace after).

(** [record(score)] for each score in turn. *)
Fixpoint record_all (p : Pass) (scores : list Q) (w : World) : World :=
  match scores with
  | [] => w
  | d :: rest => record_all p rest (snd (store_diff_history d p w))
  end.

(** What [store_diff_history] leaves in [self.__diff_history]. *)
Definition stored (count : Z) (history : list Q) (diff : Q) : list Q :=
  if Z.of_nat (List.length history) =? count
  then copy_positions count 0 history [diff]
  else history ++ [diff].

(** The fields of a session: everything [store_diff_history] leaves alone. *)
Definition same_session (s s' : MotionDetector) : Prop :=
  args s' = args s /\
  __encoding s' = __encoding s /\
  __start_time_of_last_recording s' = __start_time_of_last_recording s /\
  __time_of_last_motion_detection s' = __time_of_last_motion_detection s.

(** A line of [log_debug_as_info]. *)
Definition is_debug_log (e : Event) : Prop := exists m, e = Log DebugAsInfo m.

(** What the statistics do to the tick counter: it goes up by one and
    nothing is logged, except on the tick that reaches the interval. *)
Definition counts_tick (s s' : MotionDetector) (evs : list Event) : Prop :=
  __display_interval s' = __display_interval s /\
  ((__tick s =? __display_interval s) = false ->
   evs = [] /\ __tick s' = __tick s + 1).

(** Scores [n], [n + 1], ... ([m] of them). *)
Definition ramp (n m : nat) : list Q := map (fun k => inject_Z (Z.of_nat k)) (seq n m).

(** The defaults of the command line (threshold 7.2, no cap), with local
    deletion enabled and the three mail settings given. *)
Definition sample_args : Args :=
  mkArgs 320 240 (36 # 5) true "./recordings/" true false 0
         (Some "to@example.org"%string) (Some "from@example.org"%string)
         (Some "secret"%string) "smtp.gmail.com" 465.

(** The float arithmetic of the sample passes: the sums and quotients they
    meet are taken without rounding, and their caps are short ones. *)
Definition exact_ge (elapsed cap : Z) : bool := seconds cap <=? elapsed.

(** A pass in which the clock stands at [t] and every collaborator works. *)
Definition calm (t : time) : Pass :=
  mkPass (fun _ => t) (fun _ => "T"%string) (inr []) None None None None None
         None None None None Qplus Qdiv exact_ge.

(** A computation is stable for [R] when the world it leaves is related to
    the world it found, whether it returns or raises. *)
Definition stable (R : World -> World -> Prop) {A} (c : M A) : Prop :=
  forall p w, R w (snd (c p w)).

(** The commands that make the encoder write to a file. *)
Definition is_start_command (e : Event) : bool :=
  match e with
  | SetFileOutput _ | OutputStart => true
  | _ => false
  end.

(** Between two worlds: nothing told the encoder to start, the time of the
    last motion is the same, and the start time is the same or cleared. *)
Definition no_new_session (w w' : World) : Prop :=
  (exists evs, trace w' = trace w ++ evs /\
               Forall (fun e => is_start_command e = false) evs) /\
  args (self w') = args (self w) /\
  __time_of_last_motion_detection (self w') = __time_of_last_motion_detection (self w) /\
  (__start_time_of_last_recording (self w') = __start_time_of_last_recording (self w) \/
   __start_time_of_last_recording (self w') = None).

(** The part of a world the state machine depends on. *)
Definition session_is (w : World) (a : Args) (enc : bool) (start last : option time)
  (tck : Z) (tr : list Event) : Prop :=
  args (self w) = a /\
  __encoding (self w) = enc /\
  __start_time_of_last_recording (self w) = start /\
  __time_of_last_motion_detection (self w) = last /\
  __tick (self w) = tck /\
  __display_interval (self w) = 100 /\
  trace w = tr.

(** The clock moves by less than [gap] over the passes: any two readings,
    in the same pass or not, differ by less than [gap]. *)
Definition clock_within (gap : Z) (passes : list Pass) : Prop :=
  forall p q, In p passes -> In q passes ->
    forall i j, now_at q j - now_at p i < gap.

(** A detector that began a session at time 0 on a score of 8. *)
Definition recording_since_0 : World := feed [(calm 0, 8%Q)] (fresh sample_args).

(** [sample_args] with [--max-recording-length-seconds 10]. *)
Definition capped_args : Args :=
  mkArgs 320 240 (36 # 5) true "./recordings/" true false 10
         (Some "to@example.org"%string) (Some "from@example.org"%string)
         (Some "secret"%string) "smtp.gmail.com" 465.

(** Ticks one second apart from time 0 on, each with score 8. *)
Definition steady_motion (n : nat) : list (Pass * Q) :=
  map (fun k => (calm (seconds (Z.of_nat k)), 8%Q)) (seq 0 n).

(** A 2 by 2 low resolution stream, no mail settings, no local deletion. *)
Definition tiny_args : Args :=
  mkArgs 2 2 (36 # 5) true "./recordings/" false false 0 None None None
         "smtp.gmail.com" 465.

(** Two frames of that stream. *)
Definition dark : Frame := mkFrame 2 2 [x00; x00; x00; x00]%byte.

Definition bright : Frame := mkFrame 2 2 [xff; xff; xff; xff]%byte.

(** A pass in which the camera raises. *)
Definition camera_fails : Pass :=
  mkPass (fun _ => 0) (fun _ => "T"%string) (inl RuntimeError)
         None None None None None None None None None Qplus Qdiv exact_ge.

(** A pass in which the camera delivers the pixels of [f]. *)
Definition camera_sees (f : Frame) : Pass :=
  mkPass (fun _ => 0) (fun _ => "T"%string) (inr (pixels f))
         None None None None None None None None None Qplus Qdiv exact_ge.

(** The test of [__upload_file]: user name, recipient and password are all
    true values. *)
Definition credentials_given (a : Args) : bool :=
  truthy (email_username a) && truthy (recipient a) && truthy (email_password a).

(** How the exchange with the mail server ends on a pass: whether the line
    about the sent mail is logged, and the exception that leaves the
    exchange, if any.  A failure to connect leaves at once; a failure of
    [login] or [sendmail] leaves after the QUIT, unless the QUIT raises in
    its place; and after the line is logged only the QUIT can raise. *)
Definition smtp_outcome (p : Pass) : bool * option exn :=
  match smtp_connect_raises p with
  | Some e => (false, Some e)
  | None =>
      match smtp_raises p with
      | Some e =>
          (false, Some match smtp_quit_raises p with
                       | Some e' => e'
                       | None => e
                       end)
      | None => (true, smtp_quit_raises p)
      end
  end.

(** What a delivery attempt leaves in the trace when [__send_email] handles
    the exception of the exchange, if there is one. *)
Definition attempt_events (a : Args) (p : Pass) (file_path : string) : list Event :=
  [OpenAttachment file_path;
   SmtpSend (smtp_server a) (smtp_port a) (email_username a) (email_password a)
            (recipient a) file_path]
  ++ (if fst (smtp_outcome p) then [Log Info (SentEmail file_path)] else [])
  ++ match snd (smtp_outcome p) with
     | None => []
     | Some e => [Log Error (FailedToSendEmail file_path e)]
     end.

(** What [__delete_recording] leaves in the trace when deletion is enabled. *)
Definition deletion_events (file_path : string) : list Event :=
  [Log Info (DeletingLocalFile file_path); OsRemove file_path].

(** The outcome of [os.remove]. *)
Definition remove_result (p : Pass) : result unit :=
  match remove_raises p with
  | None => Returned tt
  | Some e => Raised e
  end.

(** A pass in which the mail transport raises [e] on connecting and all
    else works. *)
Definition transport_raises (e : exn) : Pass :=
  mkPass (fun _ => 0) (fun _ => "T"%string) (inr []) None None None None None
         (Some e) None None None Qplus Qdiv exact_ge.

(** A pass in which the mail is sent and the QUIT that follows raises [e]. *)
Definition quit_raises (e : exn) : Pass :=
  mkPass (fun _ => 0) (fun _ => "T"%string) (inr []) None None None None None
         None None (Some e) None Qplus Qdiv exact_ge.

(** The artifact that finalization hands over: the snapshot in snapshot-only
    mode, the video otherwise. *)
Definition artifact (a : Args) (p : Pass) (start : time) : string :=
  if snapshot_only a
  then (recording_dir a ++ isoformat p start ++ ".jpeg")%string
  else (recording_dir a ++ isoformat p start ++ ".h264")%string.

(** What finalization leaves in the trace before the hand-off. *)
Definition closing_events (a : Args) (p : Pass) (start : time) : list Event :=
  [Log Info (WritingSnapshotFile (recording_dir a ++ isoformat p start ++ ".jpeg")%string);
   CaptureSnapshot (recording_dir a ++ isoformat p start ++ ".jpeg")%string;
   Log Info (WritingFile (recording_dir a ++ isoformat p start ++ ".h264")%string);
   OutputStop].

(** [sample_args] without [--email-password]. *)
Definition anonymous_args : Args :=
  mkArgs 320 240 (36 # 5) true "./recordings/" true false 0
         (Some "to@example.org"%string) (Some "from@example.org"%string)
         None "smtp.gmail.com" 465.

(** The sum of the absolute differences of two histograms, bin by bin: the
    numerator of the score. *)
Definition hist_distance (h1 h2 : list Z) : Z :=
  sum (map (fun cp => Z.abs (fst cp - snd cp)) (combine h1 h2)).

(** A line of [display_diff_stats]. *)
Definition is_stats_line (e : Event) : bool :=
  match e with
  | Log DebugAsInfo (DiffStats _ _ _ _) => true
  | _ => false
  end.

Definition stats_lines (tr : list Event) : nat :=
  List.length (filter is_stats_line tr).

(** What [__upload_file] leaves in the trace when every failure is one that
    [__send_email] handles: the attempt if the credentials are given,
    then the deletion if it is enabled. *)
Definition handoff_events (a : Args) (p : Pass) (file_path : string) : list Event :=
  (if credentials_given a then attempt_events a p file_path else []) ++
  (if delete_local_recordings a then deletion_events file_path else []).

(** The camera, the encoder, the attachment and [os.remove] work on this
    pass, and the mail transport delivers or fails in a way [__send_email]
    handles. *)
Definition collaborators_cooperate (p : Pass) : Prop :=
  snapshot_raises p = None /\
  output_stop_raises p = None /\
  open_raises p = None /\
  (forall e, snd (smtp_outcome p) = Some e -> send_email_catches e = true) /\
  remove_raises p = None.

(** A detector with a cap of 10 seconds that began a session at time 0. *)
Definition capped_recording_since_0 : World := feed [(calm 0, 8%Q)] (fresh capped_args).

(** The same detector with a session begun 6 seconds before time 0. *)
Definition capped_recording_since_6_before : World :=
  feed [(calm (- seconds 6), 8%Q)] (fresh capped_args).

(** The cap on the recording length is short of 2^53 microseconds, where
    the test of the float is the comparison of the microseconds. *)
Definition cap_in_exact_range (a : Args) : Prop :=
  seconds (max_recording_length_seconds a) < 2 ^ 53.

(** On this pass the cap on the recording length is not reached: there is no
    cap, or no start time, or every reading of the clock is short of it. *)
Definition cap_not_reached (p : Pass) (w : World) : Prop :=
  forall start,
    __start_time_of_last_recording (self w) = Some start ->
    0 < max_recording_length_seconds (args (self w)) ->
    forall k, now_at p k - start < seconds (max_recording_length_seconds (args (self w))).

(** The detector is the same in both worlds. *)
Definition same_self (w w' : World) : Prop := self w' = self w.

(** If the computation returns, the session is cleared; if it raises, the
    detector is as it was. *)
Definition clears_session_or_nothing {A} (c : M A) : Prop :=
  forall p w,
    match c p w with
    | (Returned _, w') =>
        self w' = set_start_time_of_last_recording None (set_encoding false (self w))
    | (Raised _, w') => self w' = self w
    end.

(** Between two worlds the arguments are the same and, when they satisfy
    [C], only events that satisfy [P] were added to the trace. *)
Definition emits_only_when (C : Args -> bool) (P : Event -> bool) (w w' : World) : Prop :=
  args (self w') = args (self w) /\
  (C (args (self w)) = true ->
   exists evs, trace w' = trace w ++ evs /\ forallb P evs = true).

Definition deletion_disabled (a : Args) : bool := negb (delete_local_recordings a).

Definition is_not_remove (e : Event) : bool :=
  match e with
  | OsRemove _ => false
  | _ => true
  end.

Definition credentials_missing (a : Args) : bool := negb (credentials_given a).

Definition is_not_mail (e : Event) : bool :=
  match e with
  | OpenAttachment _ | SmtpSend _ _ _ _ _ _ => false
  | _ => true
  end.

(** A recording that is going on has its start time. *)
Definition session_has_start (s : MotionDetector) : Prop :=
  __encoding s = true -> __start_time_of_last_recording s <> None.

Definition keeps_session_start (w w' : World) : Prop :=
  session_has_start (self w) -> session_has_start (self w').

(** [tiny_args] with threshold 0: any change starts a recording. *)
Definition eager_args : Args :=
  mkArgs 2 2 0 true "./recordings/" false false 0 None None None
         "smtp.gmail.com" 465.

(** The name [__loop] gives to [capture_buffer]. *)
Definition stream_name (a : Args) : string :=
  if capture_lores a then "lores" else "main".

(** A pass in which the camera delivers the buffer [b]. *)
Definition camera_delivers (b : buffer) : Pass :=
  mkPass (fun _ => 0) (fun _ => "T"%string) (inr b)
         None None None None None None None None None Qplus Qdiv exact_ge.

(** The arithmetic of [__set_zoom_factor]: the size is the last two entries
    of the current [ScalerCrop], each scaled; the offset centres it on the
    sensor, with Python's floor division; the new [ScalerCrop] is the offset
    followed by the size.  [scale s] stands for [int(s * self.__zoom_factor)]. *)
Definition zoomed_scaler_crop (scale : Z -> Z) (scaler_crop sensor_resolution : list Z)
  : list Z :=
  let size := skipn 2 scaler_crop in
  let size := map scale size in
  let offset := map (fun rs => (fst rs - snd rs) / 2) (combine sensor_resolution size) in
  offset ++ size.

(** The file an event reads, sends or removes, if any. *)
Definition file_of (e : Event) : option string :=
  match e with
  | OpenAttachment f => Some f
  | SmtpSend _ _ _ _ _ f => Some f
  | OsRemove f => Some f
  | _ => None
  end.

(** A pass in which the encoder refuses the file with [e]. *)
Definition encoder_refuses (e : exn) : Pass :=
  mkPass (fun _ => 0) (fun _ => "T"%string) (inr []) (Some e) None None None None
         None None None None Qplus Qdiv exact_ge.

(** * Properties *)

(** ** Difference estimator *)

Lemma histogram_length (f : Frame) : List.length (histogram f) = 256%nat.
Proof. unfold histogram. now rewrite length_map, length_seq. Qed.

Lemma sum_abs_diag (l : list Z) (acc : Z) :
  fold_left Z.add (map (fun cp => Z.abs (fst cp - snd cp)) (combine l l)) acc = acc.
Proof.
  revert acc. induction l as [|x l IH]; intros acc; simpl.
  - reflexivity.
  - rewrite IH, Z.sub_diag. simpl. lia.
Qed.

(** C9. Two identical frames have difference score 0: their histograms
    agree bin by bin, so the sum of the absolute differences is 0, and so
    is its quotient by the number of bins. *)
Theorem identical_frames_have_zero_difference (f : Frame) :
  (__calculate_histogram_difference f f == 0)%Q.
Proof.
  unfold __calculate_histogram_difference, sum.
  rewrite sum_abs_diag.
  unfold Qeq, Qdiv, Qmult. simpl. reflexivity.
Qed.

Example different_frames_score :
  __calculate_histogram_difference
    (mkFrame 1 2 [x00; xff]%byte) (mkFrame 1 2 [x00; x00]%byte) = (2 # 256)%Q.
Proof. vm_compute. reflexivity. Qed.

(** ** Difference history *)

Lemma copy_positions_from (count : Z) (l : list Q) :
  forall pos acc, 1 <= pos ->
    copy_positions count pos l acc = acc ++ firstn (Z.to_nat (count - pos)) l.
Proof.
  induction l as [|v l IH]; intros pos acc Hpos; simpl.
  - now rewrite firstn_nil, app_nil_r.
  - rewrite IH by lia.
    replace (1 <=? pos) with true by (symmetry; apply Z.leb_le; lia). simpl.
    destruct (Z.leb_spec pos (count - 1)) as [Hle|Hgt].
    + replace (Z.to_nat (count - pos)) with (S (Z.to_nat (count - (pos + 1)))) by lia.
      simpl. now rewrite <- app_assoc.
    + replace (Z.to_nat (count - pos)) with O by lia.
      replace (Z.to_nat (count - (pos + 1))) with O by lia.
      reflexivity.
Qed.

Lemma stored_below (count : Z) (history : list Q) (diff : Q) :
  Z.of_nat (List.length history) <> count ->
  stored count history diff = history ++ [diff].
Proof.
  intros H. unfold stored.
  destruct (Z.eqb_spec (Z.of_nat (List.length history)) count); [contradiction|reflexivity].
Qed.

(** At capacity the new score is put first, the entry at position 0 is
    dropped and the entries at positions 1 and above follow. *)
Lemma stored_full (count : Z) (history : list Q) (diff : Q) :
  Z.of_nat (List.length history) = count ->
  stored count history diff = diff :: tl history.
Proof.
  intros H. unfold stored. rewrite (proj2 (Z.eqb_eq _ _) H).
  destruct history as [|x l]; [reflexivity|].
  simpl copy_positions. rewrite copy_positions_from by lia.
  simpl in H. simpl. f_equal. apply firstn_all2. lia.
Qed.

Lemma stored_nonempty (count : Z) (history : list Q) (diff : Q) :
  stored count history diff <> [].
Proof.
  destruct (Z.eq_dec (Z.of_nat (List.length history)) count) as [H|H].
  - rewrite stored_full by exact H. discriminate.
  - rewrite stored_below by exact H. destruct history; discriminate.
Qed.

Lemma stored_length (count : Z) (history : list Q) (diff : Q) :
  1 <= count -> (Z.of_nat (List.length history) <= count) ->
  Z.of_nat (List.length (stored count history diff)) <= count.
Proof.
  intros Hc Hl.
  destruct (Z.eq_dec (Z.of_nat (List.length history)) count) as [H|H].
  - rewrite stored_full by exact H.
    destruct history as [|x l]; simpl in *; lia.
  - rewrite stored_below by exact H. rewrite length_app. simpl. lia.
Qed.

Lemma display_diff_stats_returns (p : Pass) (w : World) :
  __diff_history (self w) <> [] ->
  exists s' evs,
    display_diff_stats p w = (Returned tt, mkWorld s' (reads w) (trace w ++ evs)) /\
    same_session (self w) s' /\
    __diff_history s' = __diff_history (self w) /\
    __diff_history_count s' = __diff_history_count (self w) /\
    Forall is_debug_log evs /\
    counts_tick (self w) s' evs.
Proof.
  intros Hne. destruct w as [s r tr]. simpl in *.
  unfold display_diff_stats, bind, get_self, ask. simpl.
  destruct (diff_stats_loop (float_add p) (__diff_history s) 9999 0 0)
    as [[mn mx] diff_sum].
  destruct (__diff_history s) as [|x l] eqn:Hh; [contradiction|]. simpl.
  unfold log_at_interval, bind, get_self, modify_self, log_debug_as_info, emit. simpl.
  unfold counts_tick.
  destruct (__tick s =? __display_interval s); simpl.
  - eexists _, [_]. split; [reflexivity|].
    repeat split; simpl; auto; try discriminate.
    constructor; [eexists; reflexivity|constructor].
  - eexists _, []. rewrite app_nil_r. split; [reflexivity|].
    repeat split; simpl; auto.
Qed.

Lemma store_diff_history_returns (diff : Q) (p : Pass) (w : World) :
  exists s' evs,
    store_diff_history diff p w = (Returned tt, mkWorld s' (reads w) (trace w ++ evs)) /\
    same_session (self w) s' /\
    __diff_history s' = stored (__diff_history_count (self w)) (__diff_history (self w)) diff /\
    __diff_history_count s' = __diff_history_count (self w) /\
    Forall is_debug_log evs /\
    counts_tick (self w) s' evs.
Proof.
  destruct w as [s r tr].
  pose proof (stored_nonempty (__diff_history_count s) (__diff_history s) diff) as Hne.
  revert Hne. cbn [self reads trace]. unfold store_diff_history, stored.
  unfold bind at 1. unfold get_self at 1. cbv beta iota.
  unfold bind at 1. cbn [self].
  destruct (Z.of_nat (List.length (__diff_history s)) =? __diff_history_count s);
    intros Hne; unfold modify_self; cbv beta iota; cbn [self reads trace app];
    match goal with
    | |- context [display_diff_stats p ?w1] =>
        destruct (display_diff_stats_returns p w1)
          as (s' & evs & E & Hs & Hh & Hc & Hev & Ht); [exact Hne|]
    end;
    exists s', evs; simpl in *;
    (split; [assumption|split; [exact Hs|repeat (split; [assumption|]); exact Ht]]).
Qed.

Lemma record_all_history (p : Pass) (scores : list Q) :
  forall w,
    __diff_history (self (record_all p scores w)) =
      fold_left (stored (__diff_history_count (self w))) scores (__diff_history (self w))
    /\ __diff_history_count (self (record_all p scores w)) = __diff_history_count (self w).
Proof.
  induction scores as [|d rest IH]; intros w; simpl.
  - split; reflexivity.
  - destruct (store_diff_history_returns d p w) as (s' & evs & E & _ & Hh & Hc & _ & _).
    rewrite E. simpl.
    destruct (IH (mkWorld s' (reads w) (trace w ++ evs))) as [IH1 IH2].
    simpl in IH1, IH2. rewrite IH1, IH2, Hh, Hc. split; reflexivity.
Qed.

Lemma fold_stored_length (count : Z) (scores : list Q) :
  1 <= count ->
  forall h, Z.of_nat (List.length h) <= count ->
    Z.of_nat (List.length (fold_left (stored count) scores h)) <= count.
Proof.
  intros Hc. induction scores as [|d rest IH]; intros h Hh; simpl.
  - exact Hh.
  - apply IH. now apply stored_length.
Qed.

Lemma fold_stored_below (count : Z) (scores : list Q) :
  forall h, Z.of_nat (List.length h + List.length scores) <= count ->
    fold_left (stored count) scores h = h ++ scores.
Proof.
  induction scores as [|d rest IH]; intros h Hh; simpl in *.
  - now rewrite app_nil_r.
  - rewrite stored_below by lia. rewrite IH.
    + now rewrite <- app_assoc.
    + rewrite length_app. simpl. lia.
Qed.

(** C7. The history of a new detector never holds more than 1000 scores,
    whatever is recorded; and once 1001 scores [first], [mid] (999 of them)
    and [last] have been recorded, the window is [last] followed by [mid]:
    the last score is in it, and the first one is not (unless the same value
    was recorded again later). *)
Theorem diff_history_within_capacity (a : Args) (p : Pass) :
  (forall scores,
     (List.length (__diff_history (self (record_all p scores (fresh a)))) <= 1000)%nat)
  /\
  (forall first mid last,
     List.length mid = 999%nat ->
     let window :=
       __diff_history (self (record_all p (first :: mid ++ [last]) (fresh a))) in
     window = last :: mid /\
     In last window /\
     (~ In first (mid ++ [last]) -> ~ In first window)).
Proof.
  split.
  - intros scores.
    destruct (record_all_history p scores (fresh a)) as [H _]. rewrite H.
    cbn [fresh self __init__ __diff_history __diff_history_count].
    assert (Hb : Z.of_nat (List.length (fold_left (stored 1000) scores [])) <= 1000).
    { apply fold_stored_length; simpl; lia. }
    lia.
  - intros first mid last Hmid window.
    assert (Hw : window = last :: mid).
    { unfold window.
      destruct (record_all_history p (first :: mid ++ [last]) (fresh a)) as [H _].
      rewrite H. cbn [fresh self __init__ __diff_history __diff_history_count].
      change (first :: mid ++ [last]) with ((first :: mid) ++ [last]).
      rewrite fold_left_app.
      rewrite (@fold_stored_below 1000 (first :: mid) [])
        by (cbn [List.length Nat.add]; lia).
      cbn [fold_left app].
      rewrite stored_full by (cbn [List.length]; lia). reflexivity. }
    split; [exact Hw|]. rewrite Hw. split.
    + left. reflexivity.
    + intros Hnot [Hin|Hin]; apply Hnot; apply in_or_app.
      * right. left. exact Hin.
      * left. exact Hin.
Qed.

Lemma ramp_lacks_zero (m : nat) : ~ In 0%Q (ramp 1 m).
Proof.
  unfold ramp. intros H. apply in_map_iff in H. destruct H as (k & Hk & Hin).
  apply in_seq in Hin. injection Hk as Hk. lia.
Qed.

Lemma diff_history_within_capacity_witness :
  let window :=
    __diff_history (self (record_all (calm 0) (0%Q :: ramp 1 999 ++ [1000%Q])
                                     (fresh sample_args))) in
  window = 1000%Q :: ramp 1 999 /\ In 1000%Q window /\ ~ In 0%Q window.
Proof.
  intros window.
  destruct (proj2 (diff_history_within_capacity sample_args (calm 0))
              0%Q (ramp 1 999) 1000%Q) as (Hw & Hin & Hout).
  - unfold ramp. rewrite length_map, length_seq. reflexivity.
  - split; [exact Hw|]. split; [exact Hin|]. apply Hout.
    intros H. apply in_app_or in H. destruct H as [H|[H|[]]].
    + exact (@ramp_lacks_zero 999 H).
    + discriminate H.
Defined.

(** C8 (what the code does at capacity). With the history holding the 1000
    scores 1, ..., 1000, recording 1001 and then 1002 leaves 1002 first,
    followed by 2, ..., 1000: each new score is put first, and the score
    taken out is the one at the front, which from the second such call on is
    the newest one. *)
Theorem full_history_puts_new_score_first :
  __diff_history (self (record_all (calm 0) (ramp 1 1000 ++ [1001%Q]) (fresh sample_args)))
    = 1001%Q :: ramp 2 999
  /\
  __diff_history (self (record_all (calm 0) (ramp 1 1000 ++ [1001%Q; 1002%Q])
                                   (fresh sample_args)))
    = 1002%Q :: ramp 2 999.
Proof.
  split.
  - destruct (record_all_history (calm 0) (ramp 1 1000 ++ [1001%Q]) (fresh sample_args))
      as [H _].
    rewrite H. vm_compute. reflexivity.
  - destruct (record_all_history (calm 0) (ramp 1 1000 ++ [1001%Q; 1002%Q])
                (fresh sample_args)) as [H _].
    rewrite H. vm_compute. reflexivity.
Qed.

(** ** Steps that respect a relation between worlds

    Stability for a reflexive and transitive relation goes through every
    combinator of the monad, so it is proved by following the text of a
    method. *)
Section Stable.

Variable R : World -> World -> Prop.
Local Abbreviation stable := (stable R).
Hypothesis R_refl : forall w, R w w.
Hypothesis R_trans : forall w1 w2 w3, R w1 w2 -> R w2 w3 -> R w1 w3.

Lemma stable_ret {A} (a : A) : stable (ret a).
Proof. intros p w. apply R_refl. Qed.

Lemma stable_raise {A} (e : exn) : stable (@raise A e).
Proof. intros p w. apply R_refl. Qed.

Lemma stable_get_self : stable get_self.
Proof. intros p w. apply R_refl. Qed.

Lemma stable_ask {A} (f : Pass -> A) : stable (ask f).
Proof. intros p w. apply R_refl. Qed.

Lemma stable_bind {A B} (c : M A) (k : A -> M B) :
  stable c -> (forall a, stable (k a)) -> stable (bind c k).
Proof.
  intros Hc Hk p w. unfold bind.
  specialize (Hc p w). destruct (c p w) as [[a|e] w']; simpl in *.
  - eapply R_trans; [exact Hc|apply Hk].
  - exact Hc.
Qed.

Lemma stable_when (b : bool) (c : M unit) : stable c -> stable (when b c).
Proof. intros Hc. destruct b; simpl; [exact Hc|apply stable_ret]. Qed.

Lemma stable_try_except {A} (body : M A) catches (handler : exn -> M A) :
  stable body -> (forall e, stable (handler e)) ->
  stable (try_except body catches handler).
Proof.
  intros Hb Hh p w. unfold try_except.
  specialize (Hb p w). destruct (body p w) as [[a|e] w']; simpl in *.
  - exact Hb.
  - destruct (catches e); simpl.
    + eapply R_trans; [exact Hb|apply Hh].
    + exact Hb.
Qed.

Lemma stable_with_exit {A} (body : M A) (exit : M unit) :
  stable body -> stable exit -> stable (with_exit body exit).
Proof.
  intros Hb He p w. unfold with_exit.
  specialize (Hb p w). destruct (body p w) as [r w']. simpl in Hb.
  specialize (He p w'). destruct (exit p w') as [[u|e] w'']; simpl in *;
    eapply R_trans; eassumption.
Qed.

End Stable.

Lemma no_new_session_refl (w : World) : no_new_session w w.
Proof.
  repeat split; auto. exists []. now rewrite app_nil_r.
Qed.

Lemma no_new_session_trans (w1 w2 w3 : World) :
  no_new_session w1 w2 -> no_new_session w2 w3 -> no_new_session w1 w3.
Proof.
  intros ((e1 & T1 & F1) & A1 & L1 & S1) ((e2 & T2 & F2) & A2 & L2 & S2).
  repeat split.
  - exists (e1 ++ e2). split.
    + now rewrite T2, T1, app_assoc.
    + apply Forall_app. now split.
  - congruence.
  - congruence.
  - destruct S2 as [S2|S2]; [|now right].
    destruct S1 as [S1|S1]; [left|right]; congruence.
Qed.

Abbreviation quiet := (stable no_new_session).

Lemma quiet_ret {A} (a : A) : quiet (ret a).
Proof. apply stable_ret, no_new_session_refl. Qed.

Lemma quiet_raise {A} (e : exn) : quiet (@raise A e).
Proof. apply stable_raise, no_new_session_refl. Qed.

Lemma quiet_get_self : quiet get_self.
Proof. apply stable_get_self, no_new_session_refl. Qed.

Lemma quiet_ask {A} (f : Pass -> A) : quiet (ask f).
Proof. apply stable_ask, no_new_session_refl. Qed.

Lemma quiet_bind {A B} (c : M A) (k : A -> M B) :
  quiet c -> (forall a, quiet (k a)) -> quiet (bind c k).
Proof. apply stable_bind, no_new_session_trans. Qed.

Lemma quiet_when (b : bool) (c : M unit) : quiet c -> quiet (when b c).
Proof. apply stable_when, no_new_session_refl. Qed.

Lemma quiet_try_except {A} (body : M A) catches (handler : exn -> M A) :
  quiet body -> (forall e, quiet (handler e)) ->
  quiet (try_except body catches handler).
Proof. apply stable_try_except, no_new_session_trans. Qed.

Lemma quiet_with_exit {A} (body : M A) (exit : M unit) :
  quiet body -> quiet exit -> quiet (with_exit body exit).
Proof. apply stable_with_exit, no_new_session_trans. Qed.

Lemma quiet_now : quiet now.
Proof.
  intros p w. repeat split; simpl; auto. exists []. now rewrite app_nil_r.
Qed.

Lemma quiet_emit (e : Event) : is_start_command e = false -> quiet (emit e).
Proof.
  intros He p w. repeat split; simpl; auto.
  exists [e]. split; [reflexivity|]. constructor; [exact He|constructor].
Qed.

Lemma quiet_modify (f : MotionDetector -> MotionDetector) :
  (forall s, args (f s) = args s /\
             __time_of_last_motion_detection (f s) = __time_of_last_motion_detection s /\
             (__start_time_of_last_recording (f s) = __start_time_of_last_recording s \/
              __start_time_of_last_recording (f s) = None)) ->
  quiet (modify_self f).
Proof.
  intros Hf p w. destruct (Hf (self w)) as (Ha & Hl & Hs).
  repeat split; simpl; auto. exists []. now rewrite app_nil_r.
Qed.

Create HintDb quiet.

#[local] Hint Resolve quiet_ret quiet_raise quiet_get_self quiet_ask quiet_now : quiet.

Ltac quiet_step :=
  first
    [ solve [auto with quiet]
    | apply quiet_bind; [|intros ?]
    | apply quiet_when
    | apply quiet_try_except; [|intros ?]
    | apply quiet_with_exit
    | apply quiet_emit; reflexivity
    | apply quiet_modify; intros ?; simpl; solve [auto]
    | match goal with
      | |- stable _ (match ?x with _ => _ end) => destruct x
      end ].

Ltac quiet_steps := repeat quiet_step.

Lemma quiet_call (e : Event) (o : Pass -> option exn) :
  is_start_command e = false -> quiet (call e o).
Proof.
  intros He. unfold call. quiet_steps. now apply quiet_emit.
Qed.

Lemma quiet_get_recording_file_path : quiet __get_recording_file_path.
Proof. unfold __get_recording_file_path. quiet_steps. Qed.

Lemma quiet_get_snapshot_file_path : quiet __get_snapshot_file_path.
Proof. unfold __get_snapshot_file_path. quiet_steps. Qed.

#[local] Hint Resolve quiet_get_recording_file_path quiet_get_snapshot_file_path : quiet.

Lemma quiet_write_snapshot_to_file : quiet __write_snapshot_to_file.
Proof.
  unfold __write_snapshot_to_file, __create_snapshot, log_info. quiet_steps.
Qed.

Lemma quiet_delete_recording (file_path : string) : quiet (__delete_recording file_path).
Proof. unfold __delete_recording, log_info. quiet_steps. Qed.

Lemma quiet_send_email (file_path : string) : quiet (__send_email file_path).
Proof. unfold __send_email, log_info, log_error. quiet_steps. Qed.

#[local] Hint Resolve quiet_write_snapshot_to_file quiet_delete_recording
  quiet_send_email : quiet.

Lemma quiet_upload_file (file_path : string) : quiet (__upload_file file_path).
Proof. unfold __upload_file. quiet_steps. Qed.

#[local] Hint Resolve quiet_upload_file : quiet.

Lemma quiet_write_recording_to_file : quiet __write_recording_to_file.
Proof. unfold __write_recording_to_file, log_info. quiet_steps. Qed.

Lemma quiet_is_max_recording_length_exceeded : quiet __is_max_recording_length_exceeded.
Proof. unfold __is_max_recording_length_exceeded. quiet_steps. Qed.

Lemma quiet_is_max_time_since_last_motion_detection_exceeded :
  quiet __is_max_time_since_last_motion_detection_exceeded.
Proof. unfold __is_max_time_since_last_motion_detection_exceeded. quiet_steps. Qed.

#[local] Hint Resolve quiet_write_recording_to_file
  quiet_is_max_recording_length_exceeded
  quiet_is_max_time_since_last_motion_detection_exceeded : quiet.

Lemma quiet_stop_branches (hist_diff : Q) : quiet (stop_branches hist_diff).
Proof.
  unfold stop_branches, log_info, log_movement_end. quiet_steps.
Qed.

(** While a recording is going on the condition is false, and evaluating it
    at most reads the clock. *)
Lemma start_condition_while_encoding (hist_diff : Q) (p : Pass) (w : World) :
  __encoding (self w) = true ->
  exists n, start_condition hist_diff p w
            = (Returned false, mkWorld (self w) n (trace w)).
Proof.
  intros He. destruct w as [s r tr]. simpl in He.
  unfold start_condition, and_then, not_, __is_max_recording_length_exceeded,
    bind, ret, get_self, now, ask. simpl.
  repeat (simpl;
          first
            [ rewrite He
            | match goal with
              | |- context [if ?b then _ else _] => destruct b
              | |- context [match __start_time_of_last_recording s with _ => _ end] =>
                  destruct (__start_time_of_last_recording s)
              end ]);
    eexists; reflexivity.
Qed.

Lemma loop_tick_while_encoding (hist_diff : Q) (p : Pass) (w : World) :
  __encoding (self w) = true ->
  exists n, loop_tick hist_diff p w
            = stop_branches hist_diff p (mkWorld (self w) n (trace w)).
Proof.
  intros He.
  destruct (start_condition_while_encoding hist_diff p w He) as (n & Hn).
  exists n. unfold loop_tick, bind. rewrite Hn. reflexivity.
Qed.

Lemma emitted_app (w w' : World) (evs : list Event) :
  trace w' = trace w ++ evs -> emitted w w' = evs.
Proof.
  intros H. unfold emitted. rewrite H.
  rewrite skipn_app, skipn_all, Nat.sub_diag. reflexivity.
Qed.

(** C3. On a tick that finds a recording going on, whatever the score
    (above the threshold or not), the encoder is not told to start again:
    the tick emits neither [SetFileOutput] nor [OutputStart], and the start
    time of the session is left as it is, or cleared when the tick ends the
    session.  With the single flag [__encoding] and the single start time
    this means no second session. *)
Theorem no_second_session_while_recording (hist_diff : Q) (p : Pass) (w : World) :
  __encoding (self w) = true ->
  let w' := snd (loop_tick hist_diff p w) in
  Forall (fun e => is_start_command e = false) (emitted w w') /\
  (__start_time_of_last_recording (self w') = __start_time_of_last_recording (self w) \/
   __start_time_of_last_recording (self w') = None).
Proof.
  intros He w'.
  destruct (loop_tick_while_encoding hist_diff p w He) as (n & Hn).
  pose proof (quiet_stop_branches hist_diff p (mkWorld (self w) n (trace w)))
    as ((evs & Ht & Hf) & _ & _ & Hs).
  unfold w'. rewrite Hn. simpl in Ht, Hs. split.
  - rewrite (@emitted_app w _ evs Ht). exact Hf.
  - exact Hs.
Qed.

(** ** The three ticks that end no session *)

Ltac run_tick :=
  unfold loop_tick, start_condition, start_branch, stop_branches, and_then, not_, when,
    __is_max_recording_length_exceeded,
    __is_max_time_since_last_motion_detection_exceeded,
    __start_recording, __get_recording_file_path, call,
    log_info, log_movement_start, log_movement_end,
    bind, ret, get_self, modify_self, emit, ask, now;
  simpl.

(** Symbolic execution: simplify, rewrite with what is known ([rw]), and
    split on a test that nothing known decides. *)
Ltac exec rw :=
  repeat first
    [ progress simpl
    | progress rw
    | match goal with
      | |- context [if ?b then _ else _] => destruct b
      end ].

(** Idle, score at or below the threshold: nothing happens. *)
Lemma loop_tick_idle_below (hist_diff : Q) (p : Pass) (w : World) :
  __encoding (self w) = false ->
  __start_time_of_last_recording (self w) = None ->
  Qltb (min_pixel_diff (args (self w))) hist_diff = false ->
  loop_tick hist_diff p w = (Returned tt, w).
Proof.
  intros He Hs Hd. destruct w as [s r tr]. simpl in *.
  run_tick. exec ltac:(rewrite ?Hd, ?Hs, ?He); reflexivity.
Qed.

(** Idle, score above the threshold, encoder willing: a session opens. *)
Lemma loop_tick_idle_above (hist_diff : Q) (p : Pass) (w : World) :
  __encoding (self w) = false ->
  __start_time_of_last_recording (self w) = None ->
  Qltb (min_pixel_diff (args (self w))) hist_diff = true ->
  fileoutput_raises p = None ->
  output_start_raises p = None ->
  let t0 := now_at p (reads w) in
  let t1 := now_at p (S (reads w)) in
  loop_tick hist_diff p w =
    (Returned tt,
     mkWorld
       (set_time_of_last_motion_detection (Some t1)
          (set_encoding true
             (set_start_time_of_last_recording (Some t0) (self w))))
       (S (S (reads w)))
       (trace w ++
          [Log Info (StartingNewRecording t0);
           SetFileOutput (recording_dir (args (self w)) ++ isoformat p t0 ++ ".h264")%string;
           OutputStart;
           Log MovementStart (MotionDetected hist_diff)])).
Proof.
  intros He Hs Hd Hf Ho t0 t1. destruct w as [s r tr]. simpl in *.
  run_tick. exec ltac:(rewrite ?Hd, ?Hs, ?He, ?Hf, ?Ho);
    unfold set_time_of_last_motion_detection, set_encoding,
      set_start_time_of_last_recording; simpl;
    repeat rewrite <- app_assoc; reflexivity.
Qed.

(** Recording, no cap, and the last motion no more than 5 seconds ago:
    the tick reads the clock once and changes nothing, whatever the
    score. *)
Lemma loop_tick_recording_within_gap (hist_diff : Q) (p : Pass) (w : World) (last : time) :
  __encoding (self w) = true ->
  max_recording_length_seconds (args (self w)) <= 0 ->
  __time_of_last_motion_detection (self w) = Some last ->
  now_at p (reads w) - last <= seconds __MAX_TIME_SINCE_LAST_MOTION_DETECTION_SECONDS ->
  loop_tick hist_diff p w = (Returned tt, mkWorld (self w) (S (reads w)) (trace w)).
Proof.
  intros He Hc Hl Hg. destruct w as [s r tr]. simpl in *.
  apply Z.ltb_ge in Hc, Hg.
  run_tick. exec ltac:(rewrite ?He, ?Hl, ?Hc, ?Hg); reflexivity.
Qed.

(** ** Whole passes on a score *)

Lemma score_pass_unfold (d : Q) (p : Pass) (w : World) :
  score_pass d p w =
    match store_diff_history d p w with
    | (Returned _, w1) =>
        match loop_tick d p w1 with
        | (Returned a, w2) => (Returned a, w2)
        | (Raised e, w2) => log_error (LoopError e) p w2
        end
    | (Raised e, w1) => log_error (LoopError e) p w1
    end.
Proof.
  unfold score_pass, try_except, on_score, bind.
  destruct (store_diff_history d p w) as [[[]|e] w1]; reflexivity.
Qed.

(** Storing a score off the display interval: the session is as it was and
    the tick counter is one more. *)
Lemma store_keeps_session (d : Q) (p : Pass) (w : World) a enc start last tck tr :
  session_is w a enc start last tck tr ->
  tck <> 100 ->
  exists s',
    store_diff_history d p (begin_pass w) = (Returned tt, mkWorld s' 0 tr) /\
    session_is (mkWorld s' 0 tr) a enc start last (tck + 1) tr.
Proof.
  intros (Ha & He & Hs & Hl & Ht & Hi & Htr) Hne.
  destruct (store_diff_history_returns d p (begin_pass w))
    as (s' & evs & E & (Sa & Se & Ss & Sl) & _ & _ & _ & (Ci & Ct)).
  simpl in *. destruct Ct as [Hevs Htick].
  { rewrite Ht, Hi. apply Z.eqb_neq. exact Hne. }
  subst evs. rewrite app_nil_r, Htr in E.
  exists s'. split; [exact E|].
  unfold session_is. simpl. repeat split; congruence.
Qed.

Lemma score_pass_idle_below (d : Q) (p : Pass) (w : World) a last tck tr :
  session_is w a false None last tck tr ->
  Qltb (min_pixel_diff a) d = false ->
  tck <> 100 ->
  session_is (snd (score_pass d p (begin_pass w))) a false None last (tck + 1) tr.
Proof.
  intros Hw Hd Hne.
  destruct (store_keeps_session d p Hw Hne) as (s' & E & Hw').
  rewrite score_pass_unfold, E.
  destruct Hw' as (Ha & He & Hs & Hl & Ht & Hi & Htr).
  rewrite loop_tick_idle_below; simpl in *; try assumption.
  - unfold session_is. simpl. repeat split; assumption.
  - now rewrite Ha.
Qed.

Lemma score_pass_idle_above (d : Q) (p : Pass) (w : World) a last tck tr :
  session_is w a false None last tck tr ->
  Qltb (min_pixel_diff a) d = true ->
  fileoutput_raises p = None ->
  output_start_raises p = None ->
  tck <> 100 ->
  session_is (snd (score_pass d p (begin_pass w))) a true
    (Some (now_at p 0)) (Some (now_at p 1)) (tck + 1)
    (tr ++ [Log Info (StartingNewRecording (now_at p 0));
            SetFileOutput (recording_dir a ++ isoformat p (now_at p 0) ++ ".h264")%string;
            OutputStart;
            Log MovementStart (MotionDetected d)]).
Proof.
  intros Hw Hd Hf Ho Hne.
  destruct (store_keeps_session d p Hw Hne) as (s' & E & Hw').
  rewrite score_pass_unfold, E.
  destruct Hw' as (Ha & He & Hs & Hl & Ht & Hi & Htr).
  rewrite loop_tick_idle_above; simpl in *; try assumption.
  - unfold session_is. simpl. rewrite Ha. repeat split; assumption.
  - now rewrite Ha.
Qed.

Lemma score_pass_recording_within_gap (d : Q) (p : Pass) (w : World)
  a start last tck tr :
  session_is w a true start (Some last) tck tr ->
  max_recording_length_seconds a <= 0 ->
  now_at p 0 - last <= seconds __MAX_TIME_SINCE_LAST_MOTION_DETECTION_SECONDS ->
  tck <> 100 ->
  session_is (snd (score_pass d p (begin_pass w))) a true start (Some last) (tck + 1) tr.
Proof.
  intros Hw Hc Hg Hne.
  destruct (store_keeps_session d p Hw Hne) as (s' & E & Hw').
  rewrite score_pass_unfold, E.
  destruct Hw' as (Ha & He & Hs & Hl & Ht & Hi & Htr).
  rewrite (@loop_tick_recording_within_gap d p (mkWorld s' 0 tr) last);
    simpl in *; try assumption.
  - unfold session_is. simpl. repeat split; assumption.
  - now rewrite Ha.
Qed.

(** C4. A new detector with threshold 7.2 and no cap on the recording
    length is fed the scores 0, 0, 8, 8, 8 while the clock moves by less
    than 5 seconds and the encoder accepts the start.  After two scores it
    is idle and has done nothing.  The third score opens a session: the
    start time is the clock reading of that pass, the encoder is given the
    file of the session and started, and the time of the last motion is
    set.  After the fourth and the fifth score the session is still going
    on, with the same start time and no further command. *)
Theorem idle_to_recording_on_third_sample (a : Args) (p1 p2 p3 p4 p5 : Pass) :
  min_pixel_diff a = (36 # 5)%Q ->
  max_recording_length_seconds a = 0 ->
  fileoutput_raises p3 = None ->
  output_start_raises p3 = None ->
  clock_within (seconds 5) [p1; p2; p3; p4; p5] ->
  let w2 := feed [(p1, 0%Q); (p2, 0%Q)] (fresh a) in
  let w3 := feed [(p3, 8%Q)] w2 in
  let w4 := feed [(p4, 8%Q)] w3 in
  let w5 := feed [(p5, 8%Q)] w4 in
  (__encoding (self w2) = false /\ trace w2 = []) /\
  (__encoding (self w3) = true /\
   __start_time_of_last_recording (self w3) = Some (now_at p3 0) /\
   __time_of_last_motion_detection (self w3) = Some (now_at p3 1) /\
   trace w3 =
     [Log Info (StartingNewRecording (now_at p3 0));
      SetFileOutput (recording_dir a ++ isoformat p3 (now_at p3 0) ++ ".h264")%string;
      OutputStart;
      Log MovementStart (MotionDetected 8)]) /\
  (__encoding (self w4) = true /\ trace w4 = trace w3) /\
  (__encoding (self w5) = true /\ trace w5 = trace w3 /\
   __start_time_of_last_recording (self w5) = Some (now_at p3 0)).
Proof.
  intros Hmin Hcap Hf Ho Hclock w2 w3 w4 w5.
  assert (H43 : now_at p4 0 - now_at p3 1 <= seconds 5).
  { apply Z.lt_le_incl, Hclock; simpl; auto. }
  assert (H53 : now_at p5 0 - now_at p3 1 <= seconds 5).
  { apply Z.lt_le_incl, Hclock; simpl; auto 6. }
  assert (H0 : session_is (fresh a) a false None None 0 []).
  { unfold session_is. simpl. repeat split. }
  assert (H1 : session_is (feed [(p1, 0%Q)] (fresh a)) a false None None 1 []).
  { apply (@score_pass_idle_below 0%Q p1 _ a None 0 [] H0); [|lia].
    rewrite Hmin. reflexivity. }
  assert (H2 : session_is w2 a false None None 2 []).
  { apply (@score_pass_idle_below 0%Q p2 _ a None 1 [] H1); [|lia].
    rewrite Hmin. reflexivity. }
  assert (H3 : session_is w3 a true (Some (now_at p3 0)) (Some (now_at p3 1)) 3
                 ([] ++ [Log Info (StartingNewRecording (now_at p3 0));
                         SetFileOutput (recording_dir a ++ isoformat p3 (now_at p3 0)
                                        ++ ".h264")%string;
                         OutputStart;
                         Log MovementStart (MotionDetected 8)])).
  { apply (@score_pass_idle_above 8%Q p3 _ a None 2 [] H2); try assumption; [|lia].
    rewrite Hmin. reflexivity. }
  simpl app in H3.
  assert (H4 : session_is w4 a true (Some (now_at p3 0)) (Some (now_at p3 1)) 4 (trace w3)).
  { replace (trace w3) with
      [Log Info (StartingNewRecording (now_at p3 0));
       SetFileOutput (recording_dir a ++ isoformat p3 (now_at p3 0) ++ ".h264")%string;
       OutputStart;
       Log MovementStart (MotionDetected 8)] by (symmetry; apply H3).
    apply (@score_pass_recording_within_gap 8%Q p4 _ a _ _ 3 _ H3); [lia|exact H43|lia]. }
  assert (H5 : session_is w5 a true (Some (now_at p3 0)) (Some (now_at p3 1)) 5 (trace w3)).
  { apply (@score_pass_recording_within_gap 8%Q p5 _ a _ _ 4 _ H4); [lia|exact H53|lia]. }
  unfold session_is in H2, H3, H4, H5. intuition.
Qed.

Lemma calm_clock_within :
  clock_within (seconds 5)
    [calm 0; calm (seconds 1); calm (seconds 2); calm (seconds 3); calm (seconds 4)].
Proof.
  intros p q Hp Hq i j. simpl in Hp, Hq.
  repeat (destruct Hp as [Hp|Hp]; [subst p|]); try contradiction;
    repeat (destruct Hq as [Hq|Hq]; [subst q|]); try contradiction;
    vm_compute; reflexivity.
Qed.

Lemma idle_to_recording_on_third_sample_witness :
  __encoding (self (feed [(calm 0, 0%Q); (calm (seconds 1), 0%Q)] (fresh sample_args)))
    = false /\
  __encoding (self (feed [(calm (seconds 4), 8%Q)]
                 (feed [(calm (seconds 3), 8%Q)]
                    (feed [(calm (seconds 2), 8%Q)]
                       (feed [(calm 0, 0%Q); (calm (seconds 1), 0%Q)]
                          (fresh sample_args))))))
    = true.
Proof.
  destruct (@idle_to_recording_on_third_sample sample_args
              (calm 0) (calm (seconds 1)) (calm (seconds 2)) (calm (seconds 3))
              (calm (seconds 4)))
    as ((H2 & _) & _ & _ & (H5 & _)).
  - reflexivity.
  - reflexivity.
  - reflexivity.
  - reflexivity.
  - exact calm_clock_within.
  - split; [exact H2|exact H5].
Defined.

Lemma no_second_session_while_recording_witness :
  let w' := snd (loop_tick 8 (calm (seconds 1)) recording_since_0) in
  Forall (fun e => is_start_command e = false) (emitted recording_since_0 w') /\
  (__start_time_of_last_recording (self w')
     = __start_time_of_last_recording (self recording_since_0) \/
   __start_time_of_last_recording (self w') = None).
Proof.
  apply (@no_second_session_while_recording 8 (calm (seconds 1)) recording_since_0).
  reflexivity.
Defined.

(** While a session is going on no tick sets the time of the last motion
    again, whatever the score. *)
Lemma last_motion_fixed_while_recording (hist_diff : Q) (p : Pass) (w : World) :
  __encoding (self w) = true ->
  __time_of_last_motion_detection (self (snd (loop_tick hist_diff p w)))
    = __time_of_last_motion_detection (self w).
Proof.
  intros He.
  destruct (loop_tick_while_encoding hist_diff p w He) as (n & Hn).
  pose proof (quiet_stop_branches hist_diff p (mkWorld (self w) n (trace w)))
    as (_ & _ & Hl & _).
  rewrite Hn. exact Hl.
Qed.

(** C1 (what the code does). A session began at time 0; the threshold is
    7.2 and there is no cap.  A tick at 1 second with score 8 leaves the
    time of the last motion at 0, and the next tick, at 6 seconds and again
    with score 8, ends the session: the snapshot is taken, the encoder is
    stopped, the file is sent and deleted, and the detector is idle. *)
Theorem motion_while_recording_is_not_noted :
  let w := recording_since_0 in
  let w1 := snd (loop_tick 8 (calm (seconds 1)) (begin_pass w)) in
  let w6 := snd (loop_tick 8 (calm (seconds 6)) (begin_pass w1)) in
  (__encoding (self w) = true /\
   __start_time_of_last_recording (self w) = Some 0 /\
   __time_of_last_motion_detection (self w) = Some 0 /\
   Qltb (min_pixel_diff (args (self w))) 8 = true /\
   max_recording_length_seconds (args (self w)) = 0) /\
  (__encoding (self w1) = true /\
   __time_of_last_motion_detection (self w1) = Some 0) /\
  (__encoding (self w6) = false /\
   __start_time_of_last_recording (self w6) = None /\
   emitted w1 w6 =
     [Log Info MaxTimeSinceLastMotionExceeded;
      Log MovementEnd (MotionNoLongerDetected 8);
      Log Info (WritingSnapshotFile "./recordings/T.jpeg");
      CaptureSnapshot "./recordings/T.jpeg";
      Log Info (WritingFile "./recordings/T.h264");
      OutputStop;
      OpenAttachment "./recordings/T.h264";
      SmtpSend "smtp.gmail.com" 465 (Some "from@example.org"%string)
               (Some "secret"%string) (Some "to@example.org"%string)
               "./recordings/T.h264";
      Log Info (SentEmail "./recordings/T.h264");
      Log Info (DeletingLocalFile "./recordings/T.h264");
      OsRemove "./recordings/T.h264"]).
Proof. vm_compute. repeat split. Qed.

(** C2 (what the code does). With a cap of 10 seconds and a score of 8 on
    every tick, one tick a second: the session that begins at time 0 is
    still going on after the tick at 5 seconds and is ended by the tick at
    6 seconds, four seconds short of the cap; the tick at 7 seconds begins
    another session. *)
Theorem session_ends_before_cap_under_steady_motion :
  let w5 := feed (steady_motion 6) (fresh capped_args) in
  let w6 := feed (steady_motion 7) (fresh capped_args) in
  let w7 := feed (steady_motion 8) (fresh capped_args) in
  (__encoding (self w5) = true /\
   __start_time_of_last_recording (self w5) = Some 0 /\
   ~ In OutputStop (trace w5)) /\
  (__encoding (self w6) = false /\
   __start_time_of_last_recording (self w6) = None /\
   emitted w5 w6 =
     [Log Info MaxTimeSinceLastMotionExceeded;
      Log MovementEnd (MotionNoLongerDetected 8);
      Log Info (WritingSnapshotFile "./recordings/T.jpeg");
      CaptureSnapshot "./recordings/T.jpeg";
      Log Info (WritingFile "./recordings/T.h264");
      OutputStop;
      OpenAttachment "./recordings/T.h264";
      SmtpSend "smtp.gmail.com" 465 (Some "from@example.org"%string)
               (Some "secret"%string) (Some "to@example.org"%string)
               "./recordings/T.h264";
      Log Info (SentEmail "./recordings/T.h264");
      Log Info (DeletingLocalFile "./recordings/T.h264");
      OsRemove "./recordings/T.h264"]) /\
  (__encoding (self w7) = true /\
   __start_time_of_last_recording (self w7) = Some (seconds 7)).
Proof.
  vm_compute. repeat split.
  intros H. repeat (destruct H as [H|H]; [discriminate H|]). exact H.
Qed.

(** ** Errors inside a pass *)

(** When the camera raises, the body of the pass raises the same exception
    after the call, with the detector untouched. *)
Lemma loop_body_capture_raises (previous_frame : option Frame) (p : Pass) (w : World)
  (e : exn) :
  capture_buffer p = inl e ->
  loop_body previous_frame p w =
    (Raised e,
     mkWorld (self w) (reads w)
       (trace w ++ [CaptureBuffer (if capture_lores (args (self w))
                                   then "lores" else "main")%string])).
Proof.
  intros Hc. destruct w as [s r tr].
  unfold loop_body, capture, bind, get_self, emit, ask. simpl.
  rewrite Hc. reflexivity.
Qed.

(** C5 (amended). When anything raises inside a pass, be it the capture,
    the differencing or a later step, the error is logged and the pass ends
    normally, so the loop goes on with the next pass; the previous frame the
    loop holds is the one it held before the pass: it is neither dropped
    nor replaced. *)
Theorem failed_pass_keeps_previous_frame (previous_frame : option Frame) (p : Pass)
  (rest : list Pass) (w w1 : World) (e : exn) :
  loop_body previous_frame p (begin_pass w) = (Raised e, w1) ->
  let w2 := mkWorld (self w1) (reads w1) (trace w1 ++ [Log Error (LoopError e)]) in
  loop_pass previous_frame p (begin_pass w) = (Returned previous_frame, w2) /\
  __loop (p :: rest) previous_frame w = __loop rest previous_frame w2.
Proof.
  intros Hb w2.
  assert (Hp : loop_pass previous_frame p (begin_pass w) = (Returned previous_frame, w2)).
  { unfold loop_pass, try_except. rewrite Hb. reflexivity. }
  split; [exact Hp|]. simpl. rewrite Hp. reflexivity.
Qed.

Lemma failed_pass_keeps_previous_frame_witness :
  loop_pass (Some dark) camera_fails (begin_pass (fresh tiny_args))
    = (Returned (Some dark),
       mkWorld (__init__ tiny_args) 0
         [CaptureBuffer "lores"; Log Error (LoopError RuntimeError)]) /\
  __loop [camera_fails; camera_sees bright] (Some dark) (fresh tiny_args)
    = __loop [camera_sees bright] (Some dark)
        (mkWorld (__init__ tiny_args) 0
           [CaptureBuffer "lores"; Log Error (LoopError RuntimeError)]).
Proof.
  apply (@failed_pass_keeps_previous_frame (Some dark) camera_fails
           [camera_sees bright] (fresh tiny_args)
           (mkWorld (__init__ tiny_args) 0 [CaptureBuffer "lores"]) RuntimeError).
  reflexivity.
Defined.

(** C5 (as stated, refuted). The loop holds the frame [dark]; the camera
    raises on one pass and delivers [bright] on the next.  After the failed
    pass the loop still holds [dark], not [None]; and the next pass scores
    [bright] against [dark], as the history shows, where a fresh baseline
    would have stored no score at all. *)
Lemma failed_pass_does_not_drop_previous_frame :
  fst (loop_pass (Some dark) camera_fails (begin_pass (fresh tiny_args)))
    = Returned (Some dark) /\
  fst (loop_pass (Some dark) camera_fails (begin_pass (fresh tiny_args)))
    <> Returned None /\
  __diff_history
    (self (snd (__loop [camera_fails; camera_sees bright] (Some dark) (fresh tiny_args))))
    = [__calculate_histogram_difference bright dark] /\
  __diff_history
    (self (snd (__loop [camera_sees bright] None (fresh tiny_args))))
    = [].
Proof.
  vm_compute. repeat split. discriminate.
Qed.

(** ** Hand-off *)

Ltac run_upload :=
  unfold __upload_file, __send_email, __delete_recording, try_except, with_exit,
    when, call, outcome_of,
    log_info, log_error, bind, ret, raise, get_self, modify_self, emit, ask, now;
  simpl.

Lemma delete_recording_enabled (file_path : string) (p : Pass) (w : World) :
  delete_local_recordings (args (self w)) = true ->
  __delete_recording file_path p w =
    (remove_result p,
     mkWorld (self w) (reads w) (trace w ++ deletion_events file_path)).
Proof.
  intros Hd. destruct w as [s r tr]. simpl in Hd.
  run_upload. rewrite Hd. simpl. unfold remove_result, deletion_events.
  destruct (remove_raises p); simpl; rewrite <- app_assoc; reflexivity.
Qed.

(** A delivery attempt in which the attachment can be read and the
    exception that leaves the exchange, if any, is one the handler names:
    [__send_email] returns. *)
Lemma send_email_handled (file_path : string) (p : Pass) (w : World) :
  open_raises p = None ->
  (forall e, snd (smtp_outcome p) = Some e -> send_email_catches e = true) ->
  __send_email file_path p w =
    (Returned tt,
     mkWorld (self w) (S (reads w))
       (trace w ++ attempt_events (args (self w)) p file_path)).
Proof.
  intros Ho Hs. destruct w as [s r tr].
  run_upload. rewrite Ho. simpl. unfold attempt_events.
  unfold smtp_outcome in *.
  destruct (smtp_connect_raises p) as [e0|];
    [|destruct (smtp_raises p) as [e1|]; destruct (smtp_quit_raises p) as [e2|]];
    simpl in *; try rewrite (Hs _ eq_refl); simpl;
    repeat rewrite <- app_assoc; reflexivity.
Qed.

(** X24. With local deletion enabled and the credentials given, when the
    attachment can be read and the exception that leaves the exchange with
    the mail server, if there is one, is an [SMTPException] or a socket
    timeout, [__send_email] returns without raising, and [__upload_file]
    goes on to request the deletion of the very file it handed over: the
    trace is the attempt followed by the deletion, and the only exception
    that can leave [__upload_file] is one of [os.remove] itself.  This
    covers a failure to connect, a failure of [login] or [sendmail], and a
    failure of the QUIT after the mail was sent, where both the line about
    the sent mail and the line about the failure are logged. *)
Theorem deletion_follows_handled_delivery (file_path : string) (p : Pass) (w : World) :
  delete_local_recordings (args (self w)) = true ->
  credentials_given (args (self w)) = true ->
  open_raises p = None ->
  (forall e, snd (smtp_outcome p) = Some e -> send_email_catches e = true) ->
  fst (__send_email file_path p w) = Returned tt /\
  __upload_file file_path p w =
    (remove_result p,
     mkWorld (self w) (S (reads w))
       (trace w ++ attempt_events (args (self w)) p file_path
                ++ deletion_events file_path)).
Proof.
  intros Hd Hc Ho Hs. split.
  - now rewrite send_email_handled.
  - unfold __upload_file. unfold bind at 1. unfold get_self at 1. cbv beta iota.
    unfold credentials_given in Hc. rewrite Hc. unfold when, bind.
    rewrite send_email_handled by assumption.
    rewrite delete_recording_enabled by exact Hd.
    simpl. now rewrite <- app_assoc.
Qed.

Lemma deletion_follows_handled_delivery_witness :
  fst (__send_email "clip.h264" (quit_raises SMTPException) (fresh sample_args))
    = Returned tt /\
  __upload_file "clip.h264" (quit_raises SMTPException) (fresh sample_args) =
    (Returned tt,
     mkWorld (__init__ sample_args) 1
       [OpenAttachment "clip.h264";
        SmtpSend "smtp.gmail.com" 465 (Some "from@example.org"%string)
                 (Some "secret"%string) (Some "to@example.org"%string) "clip.h264";
        Log Info (SentEmail "clip.h264");
        Log Error (FailedToSendEmail "clip.h264" SMTPException);
        Log Info (DeletingLocalFile "clip.h264");
        OsRemove "clip.h264"]).
Proof.
  apply (@deletion_follows_handled_delivery "clip.h264"
           (quit_raises SMTPException) (fresh sample_args)).
  - reflexivity.
  - reflexivity.
  - reflexivity.
  - intros e He. injection He as <-. reflexivity.
Defined.

(** A refused connection that the transport reports as an [SMTPException]
    is handled: the failure is logged and the file is deleted. *)
Example handled_connection_failure_is_followed_by_deletion :
  __upload_file "clip.h264" (transport_raises SMTPException) (fresh sample_args) =
    (Returned tt,
     mkWorld (__init__ sample_args) 1
       [OpenAttachment "clip.h264";
        SmtpSend "smtp.gmail.com" 465 (Some "from@example.org"%string)
                 (Some "secret"%string) (Some "to@example.org"%string) "clip.h264";
        Log Error (FailedToSendEmail "clip.h264" SMTPException);
        Log Info (DeletingLocalFile "clip.h264");
        OsRemove "clip.h264"]).
Proof. vm_compute. reflexivity. Qed.

(** C6 (what the code does). Local deletion is enabled, the credentials are
    given and a session is going on.  The connection to the mail server
    fails with an [OSError], as when it is refused: the handler of
    [__send_email] names only [SMTPException] and the socket timeout, so the
    exception leaves [__send_email] and [__upload_file] before the deletion
    is reached, and no [os.remove] is requested.  It leaves the
    finalization too, before the session is cleared: [__encoding] is still
    true, and the next tick finalizes again. *)
Theorem uncaught_delivery_failure_skips_deletion :
  let w := recording_since_0 in
  delete_local_recordings (args (self w)) = true /\
  credentials_given (args (self w)) = true /\
  fst (__upload_file "clip.h264" (transport_raises OSError) w) = Raised OSError /\
  ~ In (OsRemove "clip.h264")
       (trace (snd (__upload_file "clip.h264" (transport_raises OSError) w))) /\
  fst (__write_recording_to_file (transport_raises OSError) w) = Raised OSError /\
  __encoding (self (snd (__write_recording_to_file (transport_raises OSError) w))) = true.
Proof.
  vm_compute. repeat split.
  intros H. repeat (destruct H as [H|H]; [discriminate H|]). exact H.
Qed.

(** Finalization up to the hand-off, when the camera and the encoder work:
    snapshot, stop, then [__upload_file] on the artifact, then the session
    is cleared if the hand-off returned. *)
Lemma write_recording_to_file_runs (p : Pass) (w : World) (start : time) :
  __start_time_of_last_recording (self w) = Some start ->
  snapshot_raises p = None ->
  output_stop_raises p = None ->
  __write_recording_to_file p w =
    match __upload_file (artifact (args (self w)) p start) p
            (mkWorld (self w) (reads w)
               (trace w ++ closing_events (args (self w)) p start)) with
    | (Returned _, w2) =>
        (Returned tt,
         mkWorld (set_start_time_of_last_recording None (set_encoding false (self w2)))
                 (reads w2) (trace w2))
    | (Raised e, w2) => (Raised e, w2)
    end.
Proof.
  intros Hs Hsn Hst. destruct w as [s r tr]. simpl in Hs.
  unfold __write_recording_to_file, __write_snapshot_to_file, __create_snapshot,
    __get_snapshot_file_path, __get_recording_file_path, call, log_info, artifact,
    closing_events.
  unfold bind, ret, raise, get_self, modify_self, emit, ask. simpl.
  repeat first [progress simpl | progress rewrite ?Hs, ?Hsn, ?Hst].
  repeat rewrite <- app_assoc. simpl.
  destruct (snapshot_only (args s));
    match goal with
    | |- context [__upload_file ?f p ?w0] => destruct (__upload_file f p w0) as [[[]|e] w2]
    end; reflexivity.
Qed.

Lemma upload_file_without_credentials (file_path : string) (p : Pass) (w : World) :
  credentials_given (args (self w)) = false ->
  __upload_file file_path p w = __delete_recording file_path p w.
Proof.
  intros Hc. unfold __upload_file. unfold bind at 1. unfold get_self at 1.
  cbv beta iota. unfold credentials_given in Hc. rewrite Hc. reflexivity.
Qed.

Lemma unset_credential_not_given (a : Args) :
  email_username a = None \/ recipient a = None \/ email_password a = None ->
  credentials_given a = false.
Proof.
  unfold credentials_given. intros [H|[H|H]]; rewrite H; simpl.
  - reflexivity.
  - now rewrite andb_false_r.
  - now rewrite andb_false_r.
Qed.

(** C10. When the user name, the recipient or the password is unset,
    [__upload_file] is [__delete_recording] and nothing else: no attachment
    is opened, nothing is sent, nothing is logged about sending.  With
    local deletion enabled the deletion of the file is requested all the
    same; and a finalization in which the camera and the encoder work
    emits the snapshot, the stop and the deletion of the artifact, and
    nothing in between. *)
Theorem missing_credentials_delete_without_delivery (file_path : string) (p : Pass)
  (w : World) :
  email_username (args (self w)) = None \/ recipient (args (self w)) = None
    \/ email_password (args (self w)) = None ->
  __upload_file file_path p w = __delete_recording file_path p w /\
  (delete_local_recordings (args (self w)) = true ->
   __upload_file file_path p w =
     (remove_result p,
      mkWorld (self w) (reads w) (trace w ++ deletion_events file_path)) /\
   forall start,
     __start_time_of_last_recording (self w) = Some start ->
     snapshot_raises p = None ->
     output_stop_raises p = None ->
     trace (snd (__write_recording_to_file p w)) =
       trace w ++ closing_events (args (self w)) p start
               ++ deletion_events (artifact (args (self w)) p start)).
Proof.
  intros Hunset. apply unset_credential_not_given in Hunset.
  split; [now apply upload_file_without_credentials|].
  intros Hd. split.
  - rewrite upload_file_without_credentials by exact Hunset.
    now apply delete_recording_enabled.
  - intros start Hs Hsn Hst.
    rewrite (write_recording_to_file_runs p w Hs Hsn Hst).
    rewrite upload_file_without_credentials by exact Hunset.
    rewrite delete_recording_enabled by exact Hd.
    unfold remove_result. simpl.
    destruct (remove_raises p); simpl; now rewrite <- app_assoc.
Qed.

Lemma missing_credentials_delete_without_delivery_witness :
  __upload_file "clip.h264" (calm 0) (fresh anonymous_args)
    = (Returned tt,
       mkWorld (__init__ anonymous_args) 0
         [Log Info (DeletingLocalFile "clip.h264"); OsRemove "clip.h264"]).
Proof.
  destruct (@missing_credentials_delete_without_delivery "clip.h264" (calm 0)
              (fresh anonymous_args)) as [_ H].
  - right. right. reflexivity.
  - destruct H as [H _]; [reflexivity|exact H].
Defined.

(** * Further properties of the code *)

Unset Implicit Arguments.

(** ** Difference estimator: a distance between histograms *)

Lemma fold_add_from (l : list Z) :
  forall acc, fold_left Z.add l acc = acc + fold_left Z.add l 0.
Proof.
  induction l as [|y l IH]; intros acc; simpl.
  - lia.
  - rewrite (IH (acc + y)), (IH y). lia.
Qed.

Lemma sum_cons (x : Z) (l : list Z) : sum (x :: l) = x + sum l.
Proof. unfold sum. simpl. apply fold_add_from. Qed.

Lemma sum_nil : sum [] = 0.
Proof. reflexivity. Qed.

Lemma hist_distance_cons (x y : Z) (h1 h2 : list Z) :
  hist_distance (x :: h1) (y :: h2) = Z.abs (x - y) + hist_distance h1 h2.
Proof. unfold hist_distance. simpl. apply sum_cons. Qed.

Lemma difference_is_distance_over_bins (a b : Frame) :
  __calculate_histogram_difference a b =
    (inject_Z (hist_distance (histogram a) (histogram b)) / inject_Z 256)%Q.
Proof.
  unfold __calculate_histogram_difference, hist_distance.
  rewrite histogram_length. reflexivity.
Qed.

Lemma hist_distance_diag (h : list Z) : hist_distance h h = 0.
Proof. unfold hist_distance, sum. apply sum_abs_diag. Qed.

Lemma hist_distance_sym (h1 : list Z) :
  forall h2, hist_distance h1 h2 = hist_distance h2 h1.
Proof.
  induction h1 as [|x h1 IH]; intros [|y h2]; try reflexivity.
  rewrite !hist_distance_cons, IH. f_equal. lia.
Qed.

Lemma hist_distance_nil_l (h : list Z) : hist_distance [] h = 0.
Proof. reflexivity. Qed.

Lemma hist_distance_nil_r (h : list Z) : hist_distance h [] = 0.
Proof. destruct h; reflexivity. Qed.

Lemma hist_distance_nonneg (h1 : list Z) :
  forall h2, 0 <= hist_distance h1 h2.
Proof.
  induction h1 as [|x h1 IH]; intros [|y h2].
  - rewrite hist_distance_nil_l. lia.
  - rewrite hist_distance_nil_l. lia.
  - rewrite hist_distance_nil_r. lia.
  - rewrite hist_distance_cons. specialize (IH h2). lia.
Qed.

Lemma hist_distance_triangle (h1 : list Z) :
  forall h2 h3,
    List.length h1 = List.length h2 -> List.length h2 = List.length h3 ->
    hist_distance h1 h3 <= hist_distance h1 h2 + hist_distance h2 h3.
Proof.
  induction h1 as [|x h1 IH]; intros [|y h2] [|z h3] H12 H23;
    try discriminate H12; try discriminate H23.
  - rewrite !hist_distance_nil_l. lia.
  - rewrite !hist_distance_cons.
    injection H12 as H12. injection H23 as H23.
    specialize (IH h2 h3 H12 H23). lia.
Qed.

Lemma over_bins_le (x y : Z) :
  x <= y -> (inject_Z x / inject_Z 256 <= inject_Z y / inject_Z 256)%Q.
Proof. intros H. unfold Qle, Qdiv, Qmult, Qinv, inject_Z. simpl. lia. Qed.

Lemma over_bins_nonneg (x : Z) :
  0 <= x -> (0 <= inject_Z x / inject_Z 256)%Q.
Proof. intros H. unfold Qle, Qdiv, Qmult, Qinv, inject_Z. simpl. lia. Qed.

Lemma over_bins_plus (x y : Z) :
  (inject_Z (x + y) / inject_Z 256
   == inject_Z x / inject_Z 256 + inject_Z y / inject_Z 256)%Q.
Proof. unfold Qeq, Qdiv, Qmult, Qinv, Qplus, inject_Z. simpl. lia. Qed.

(** X1. The score does not depend on which of the two frames is the
    current one. *)
Theorem difference_symmetric (a b : Frame) :
  __calculate_histogram_difference a b = __calculate_histogram_difference b a.
Proof.
  rewrite !difference_is_distance_over_bins.
  now rewrite hist_distance_sym.
Qed.

Lemma over_bins_triangle (x y z : Z) :
  x <= y + z ->
  (inject_Z x / inject_Z 256
   <= inject_Z y / inject_Z 256 + inject_Z z / inject_Z 256)%Q.
Proof.
  intros H.
  apply Qle_trans with (inject_Z (y + z) / inject_Z 256)%Q.
  - apply over_bins_le, H.
  - apply Qle_lteq. right. apply over_bins_plus.
Qed.

(** X2. The scores of three frames obey the triangle inequality: going
    from [a] to [c] costs no more than going through [b]. *)
Theorem difference_triangle (a b c : Frame) :
  (__calculate_histogram_difference a c
   <= __calculate_histogram_difference a b + __calculate_histogram_difference b c)%Q.
Proof.
  rewrite !difference_is_distance_over_bins.
  apply over_bins_triangle, hist_distance_triangle.
  - exact (eq_trans (histogram_length a) (eq_sym (histogram_length b))).
  - exact (eq_trans (histogram_length b) (eq_sym (histogram_length c))).
Qed.

Lemma sum_map_add {A} (f g : A -> Z) (l : list A) :
  sum (map (fun i => f i + g i) l) = sum (map f l) + sum (map g l).
Proof.
  induction l as [|x l IH]; simpl.
  - reflexivity.
  - rewrite !sum_cons, IH. lia.
Qed.

Lemma sum_indicator (x : nat) (n : nat) :
  forall a,
    sum (map (fun i => if Nat.eqb x i then 1 else 0) (seq a n))
    = if ((a <=? x)%nat && (x <? a + n)%nat)%bool then 1 else 0.
Proof.
  induction n as [|n IH]; intros a; simpl.
  - destruct (Nat.leb_spec a x), (Nat.ltb_spec x (a + 0)); simpl; try reflexivity; lia.
  - rewrite sum_cons, IH.
    destruct (Nat.eqb_spec x a), (Nat.leb_spec a x), (Nat.leb_spec (S a) x),
      (Nat.ltb_spec x (S a + n)), (Nat.ltb_spec x (a + S n)); simpl; lia.
Qed.

Lemma count_occ_step (x : nat) (l : list nat) (i : nat) :
  Z.of_nat (count_occ Nat.eq_dec (x :: l) i)
  = Z.of_nat (count_occ Nat.eq_dec l i) + (if Nat.eqb x i then 1 else 0).
Proof.
  simpl. destruct (Nat.eq_dec x i) as [E|E], (Nat.eqb_spec x i); try contradiction; lia.
Qed.

(** Every sample falls in exactly one bin. *)
Lemma histogram_sum (f : Frame) :
  sum (histogram f) = Z.of_nat (List.length (pixels f)).
Proof.
  unfold histogram. induction (pixels f) as [|b l IH].
  - cbn [map List.length count_occ].
    induction (seq 0 256) as [|i s IHs]; [reflexivity|].
    cbn [map]. rewrite sum_cons, IHs. reflexivity.
  - cbn [map List.length].
    rewrite (map_ext _ _ (count_occ_step (Byte.to_nat b) (map Byte.to_nat l))).
    rewrite sum_map_add, IH, sum_indicator.
    pose proof (Byte.to_nat_bounded b).
    destruct (Nat.leb_spec 0 (Byte.to_nat b)), (Nat.ltb_spec (Byte.to_nat b) (0 + 256));
      simpl; lia.
Qed.

Lemma histogram_nonneg (f : Frame) : Forall (fun c => 0 <= c) (histogram f).
Proof.
  unfold histogram. apply Forall_forall. intros c Hc.
  apply in_map_iff in Hc. destruct Hc as (i & <- & _). lia.
Qed.

Lemma hist_distance_le_sums (h1 : list Z) :
  forall h2,
    List.length h1 = List.length h2 ->
    Forall (fun c => 0 <= c) h1 -> Forall (fun c => 0 <= c) h2 ->
    hist_distance h1 h2 <= sum h1 + sum h2.
Proof.
  induction h1 as [|x h1 IH]; intros [|y h2] Hl H1 H2; try discriminate Hl.
  - rewrite hist_distance_nil_l, sum_nil. lia.
  - rewrite hist_distance_cons, !sum_cons.
    inversion H1; inversion H2; subst. injection Hl as Hl.
    specialize (IH h2 Hl ltac:(assumption) ltac:(assumption)).
    lia.
Qed.

(** X3. The score is never negative, and never more than the number of
    samples of the two frames together divided by the 256 bins. *)
Theorem difference_bounds (a b : Frame) :
  (0 <= __calculate_histogram_difference a b)%Q /\
  (__calculate_histogram_difference a b
   <= inject_Z (Z.of_nat (List.length (pixels a) + List.length (pixels b)))
      / inject_Z 256)%Q.
Proof.
  rewrite difference_is_distance_over_bins. split.
  - apply over_bins_nonneg, hist_distance_nonneg.
  - apply over_bins_le.
    rewrite Nat2Z.inj_add, <- !histogram_sum.
    apply hist_distance_le_sums; try apply histogram_nonneg.
    now rewrite !histogram_length.
Qed.

Lemma histogram_of_permutation (a a' : Frame) :
  Permutation (pixels a) (pixels a') -> histogram a' = histogram a.
Proof.
  intros Hp. unfold histogram. apply map_ext. intros i. f_equal.
  symmetry. apply Permutation_count_occ. now apply Permutation_map.
Qed.

(** X4. Only how often each intensity occurs counts, not where: a frame
    whose samples are those of [a] in another order scores like [a] against
    every frame, and scores 0 against [a] itself. *)
Theorem rearranged_frame_scores_alike (a a' b : Frame) :
  Permutation (pixels a) (pixels a') ->
  __calculate_histogram_difference a' b = __calculate_histogram_difference a b /\
  (__calculate_histogram_difference a' a == 0)%Q.
Proof.
  intros Hp. pose proof (histogram_of_permutation a a' Hp) as Hh.
  rewrite !difference_is_distance_over_bins, Hh. split; [reflexivity|].
  rewrite hist_distance_diag. reflexivity.
Qed.

Lemma rearranged_frame_scores_alike_witness :
  __calculate_histogram_difference (mkFrame 1 2 [xff; x00]%byte) bright
    = __calculate_histogram_difference (mkFrame 1 2 [x00; xff]%byte) bright /\
  (__calculate_histogram_difference (mkFrame 1 2 [xff; x00]%byte)
                                    (mkFrame 1 2 [x00; xff]%byte) == 0)%Q.
Proof.
  apply (@rearranged_frame_scores_alike (mkFrame 1 2 [x00; xff]%byte)
           (mkFrame 1 2 [xff; x00]%byte) bright).
  simpl. apply perm_swap.
Defined.

(** ** Statistics of the history *)

Lemma Qltb_true (x y : Q) : Qltb x y = true -> (x < y)%Q.
Proof.
  unfold Qltb. intros H. apply negb_true_iff in H.
  apply Qnot_le_lt. intros Hle. apply Qle_bool_iff in Hle. congruence.
Qed.

Lemma Qltb_false (x y : Q) : Qltb x y = false -> (y <= x)%Q.
Proof.
  unfold Qltb. intros H. apply negb_false_iff in H. now apply Qle_bool_iff.
Qed.

(** What the loop of [display_diff_stats] computes from any start values:
    the smallest of the start minimum and the scores, the largest of the
    start maximum and the scores, and the scores added to the start sum
    from left to right. *)
Lemma diff_stats_loop_spec (add : Q -> Q -> Q) (l : list Q) :
  forall mn mx sm,
    let r := diff_stats_loop add l mn mx sm in
    ((fst (fst r) <= mn)%Q /\ Forall (fun v => (fst (fst r) <= v)%Q) l /\
     (fst (fst r) = mn \/ In (fst (fst r)) l)) /\
    ((mx <= snd (fst r))%Q /\ Forall (fun v => (v <= snd (fst r))%Q) l /\
     (snd (fst r) = mx \/ In (snd (fst r)) l)) /\
    snd r = fold_left add l sm.
Proof.
  induction l as [|v l IH]; intros mn mx sm; cbn [diff_stats_loop].
  - simpl. repeat split; try apply Qle_refl; try constructor; auto.
  - set (mn1 := if Qltb v mn then v else mn).
    set (mx1 := if Qltb mx v then v else mx).
    destruct (IH mn1 mx1 (add sm v)) as ((Hmn & Hmnl & Hmni) & (Hmx & Hmxl & Hmxi) & Hsum).
    set (r := diff_stats_loop add l mn1 mx1 (add sm v)) in *.
    assert (Hmn1 : (mn1 <= mn)%Q /\ (mn1 <= v)%Q /\ (mn1 = mn \/ mn1 = v)).
    { unfold mn1. destruct (Qltb v mn) eqn:E.
      - apply Qltb_true in E. repeat split; auto using Qlt_le_weak, Qle_refl.
      - apply Qltb_false in E. repeat split; auto using Qle_refl. }
    assert (Hmx1 : (mx <= mx1)%Q /\ (v <= mx1)%Q /\ (mx1 = mx \/ mx1 = v)).
    { unfold mx1. destruct (Qltb mx v) eqn:E.
      - apply Qltb_true in E. repeat split; auto using Qlt_le_weak, Qle_refl.
      - apply Qltb_false in E. repeat split; auto using Qle_refl. }
    destruct Hmn1 as (A1 & A2 & A3). destruct Hmx1 as (B1 & B2 & B3).
    split; [|split].
    + split; [eapply Qle_trans; eassumption|]. split.
      * constructor; [eapply Qle_trans; eassumption|assumption].
      * destruct Hmni as [E|E]; [|right; right; exact E].
        rewrite E. destruct A3 as [A3|A3]; [left; exact A3|right; left; now symmetry].
    + split; [eapply Qle_trans; eassumption|]. split.
      * constructor; [eapply Qle_trans; eassumption|assumption].
      * destruct Hmxi as [E|E]; [|right; right; exact E].
        rewrite E. destruct B3 as [B3|B3]; [left; exact B3|right; left; now symmetry].
    + exact Hsum.
Qed.

(** [display_diff_stats] on a history that is not empty. *)
Lemma display_diff_stats_run (p : Pass) (w : World) :
  __diff_history (self w) <> [] ->
  let s := self w in
  let r := diff_stats_loop (float_add p) (__diff_history s) 9999 0 0 in
  let n := List.length (__diff_history s) in
  let avg := float_div p (snd r) (inject_Z (Z.of_nat n)) in
  let due := __tick s =? __display_interval s in
  display_diff_stats p w =
    (Returned tt,
     mkWorld
       (set_tick (if due then 0 else __tick s + 1)
          (set_diff_stats (fst (fst r)) (snd (fst r)) avg s))
       (reads w)
       (trace w ++ if due then [Log DebugAsInfo (DiffStats n avg (fst (fst r)) (snd (fst r)))]
                   else [])).
Proof.
  intros Hne. destruct w as [s r tr]. simpl in *.
  unfold display_diff_stats, bind, get_self, ask. simpl.
  destruct (diff_stats_loop (float_add p) (__diff_history s) 9999 0 0)
    as [[mn mx] diff_sum].
  destruct (__diff_history s) as [|x l] eqn:Hh; [contradiction|]. simpl.
  unfold log_at_interval, bind, get_self, modify_self, log_debug_as_info, emit. simpl.
  destruct (__tick s =? __display_interval s); simpl.
  - reflexivity.
  - now rewrite app_nil_r.
Qed.

(** [store_diff_history] is the update of the history followed by the
    statistics. *)
Lemma store_diff_history_run (diff : Q) (p : Pass) (w : World) :
  store_diff_history diff p w =
    display_diff_stats p
      (mkWorld (set_diff_history
                  (stored (__diff_history_count (self w)) (__diff_history (self w)) diff)
                  (self w))
               (reads w) (trace w)).
Proof.
  destruct w as [s r tr]. cbn [self reads trace].
  unfold store_diff_history, stored.
  unfold bind at 1. unfold get_self at 1. cbv beta iota.
  unfold bind at 1. cbn [self].
  destruct (Z.of_nat (List.length (__diff_history s)) =? __diff_history_count s);
    unfold modify_self; cbv beta iota; cbn [self reads trace app]; reflexivity.
Qed.

Lemma stored_keeps_new (count : Z) (history : list Q) (diff : Q) :
  In diff (stored count history diff).
Proof.
  destruct (Z.eq_dec (Z.of_nat (List.length history)) count) as [H|H].
  - rewrite stored_full by exact H. now left.
  - rewrite stored_below by exact H. apply in_or_app. right. now left.
Qed.

(** X5. After a score is stored, the statistics describe the retained
    window: the minimum is the smallest of 9999 and the retained scores (so
    it never reports more than 9999), the maximum the largest of 0 and the
    retained scores; the average is the quotient, in float arithmetic, of
    the retained scores added up from left to right by their number (a
    rounded value: multiplied back it need not give the sum); and the score
    just stored is among the retained ones. *)
Theorem statistics_after_store (diff : Q) (p : Pass) (w : World) :
  let s' := self (snd (store_diff_history diff p w)) in
  let h := __diff_history s' in
  ((__diff_min s' <= 9999)%Q /\ Forall (fun v => (__diff_min s' <= v)%Q) h /\
   (__diff_min s' = 9999%Q \/ In (__diff_min s') h)) /\
  ((0 <= __diff_max s')%Q /\ Forall (fun v => (v <= __diff_max s')%Q) h /\
   (__diff_max s' = 0%Q \/ In (__diff_max s') h)) /\
  __diff_average s' =
    float_div p (fold_left (float_add p) h 0%Q) (inject_Z (Z.of_nat (List.length h))) /\
  In diff h.
Proof.
  intros s' h. unfold h, s'. clear h s'.
  rewrite store_diff_history_run.
  set (h := stored (__diff_history_count (self w)) (__diff_history (self w)) diff).
  rewrite display_diff_stats_run by (cbn [self __diff_history set_diff_history];
                                     apply stored_nonempty).
  cbn [snd self set_tick set_diff_stats set_diff_history
       __diff_history __diff_min __diff_max __diff_average].
  fold h.
  destruct (diff_stats_loop_spec (float_add p) h 9999 0 0) as (Hmin & Hmax & Hsum).
  split; [exact Hmin|]. split; [exact Hmax|]. split.
  - now rewrite Hsum.
  - apply stored_keeps_new.
Qed.

(** X6. The statistics fail only on an empty history: there
    [display_diff_stats] raises [ZeroDivisionError], having reset the minimum
    to 9999 and the maximum to 0 and logged nothing; [store_diff_history],
    which calls it after putting a score in, always returns. *)
Theorem statistics_fail_only_on_empty_history (p : Pass) (w : World) :
  (__diff_history (self w) = [] ->
   let r := display_diff_stats p w in
   fst r = Raised ZeroDivisionError /\
   trace (snd r) = trace w /\
   __diff_min (self (snd r)) = 9999%Q /\
   __diff_max (self (snd r)) = 0%Q /\
   __diff_average (self (snd r)) = __diff_average (self w)) /\
  (forall diff, fst (store_diff_history diff p w) = Returned tt).
Proof.
  split.
  - intros Hh. destruct w as [s r tr]. simpl in Hh.
    unfold display_diff_stats, bind, get_self, ask, modify_self, raise. simpl.
    rewrite Hh. simpl. repeat split.
  - intros diff.
    destruct (store_diff_history_returns diff p w) as (s' & evs & E & _).
    now rewrite E.
Qed.

Lemma statistics_fail_only_on_empty_history_witness :
  fst (display_diff_stats (calm 0) (fresh sample_args)) = Raised ZeroDivisionError.
Proof.
  destruct (statistics_fail_only_on_empty_history (calm 0) (fresh sample_args))
    as [H _].
  apply H. reflexivity.
Defined.

Lemma stats_lines_app (tr evs : list Event) :
  stats_lines (tr ++ evs) = (stats_lines tr + stats_lines evs)%nat.
Proof. unfold stats_lines. now rewrite filter_app, length_app. Qed.

(** One call of [store_diff_history], seen from the tick counter. *)
Lemma store_diff_history_counts (diff : Q) (p : Pass) (w : World) :
  let w' := snd (store_diff_history diff p w) in
  let due := __tick (self w) =? __display_interval (self w) in
  __display_interval (self w') = __display_interval (self w) /\
  __tick (self w') = (if due then 0 else __tick (self w) + 1) /\
  stats_lines (trace w') = (stats_lines (trace w) + if due then 1 else 0)%nat.
Proof.
  rewrite store_diff_history_run.
  rewrite display_diff_stats_run by (cbn [self __diff_history set_diff_history];
                                     apply stored_nonempty).
  cbn [snd self reads trace set_tick set_diff_stats set_diff_history
       __tick __display_interval].
  repeat split. rewrite stats_lines_app.
  destruct (__tick (self w) =? __display_interval (self w)); reflexivity.
Qed.

Lemma record_all_counts (p : Pass) (scores : list Q) :
  forall w,
    __display_interval (self w) = 100 ->
    0 <= __tick (self w) <= 100 ->
    let w' := record_all p scores w in
    let n := __tick (self w) + Z.of_nat (List.length scores) in
    __tick (self w') = n mod 101 /\
    Z.of_nat (stats_lines (trace w')) = Z.of_nat (stats_lines (trace w)) + n / 101.
Proof.
  induction scores as [|d rest IH]; intros w Hi Ht; cbn [record_all List.length].
  - cbv zeta. rewrite Z.add_0_r. rewrite Z.mod_small, Z.div_small by lia. lia.
  - destruct (store_diff_history_counts d p w) as (Hi' & Ht' & Hl').
    rewrite Hi in *.
    set (w1 := snd (store_diff_history d p w)) in *.
    assert (Ht1 : 0 <= __tick (self w1) <= 100).
    { rewrite Ht'. destruct (Z.eqb_spec (__tick (self w)) 100); lia. }
    destruct (IH w1 Hi' Ht1) as (IHt & IHl). cbv zeta.
    rewrite IHt, IHl, Hl', Ht'.
    destruct (Z.eqb_spec (__tick (self w)) 100) as [E|E].
    + rewrite E. rewrite Nat2Z.inj_succ.
      split; Z.to_euclidean_division_equations; lia.
    + rewrite Nat2Z.inj_succ.
      replace (__tick (self w) + Z.succ (Z.of_nat (List.length rest)))
        with (__tick (self w) + 1 + Z.of_nat (List.length rest)) by lia.
      split; lia.
Qed.

(** X7. A new detector logs its statistics on every 101st stored score:
    the counter runs from 0 up to the display interval of 100 and the line
    is written on the call that finds it there.  After [n] scores there are
    [n / 101] lines and the counter stands at [n mod 101]. *)
Theorem statistics_logged_every_101_scores (a : Args) (p : Pass) (scores : list Q) :
  let w := record_all p scores (fresh a) in
  let n := Z.of_nat (List.length scores) in
  Z.of_nat (stats_lines (trace w)) = n / 101 /\
  __tick (self w) = n mod 101.
Proof.
  destruct (@record_all_counts p scores (fresh a) eq_refl ltac:(simpl; lia)) as (Ht & Hl).
  simpl in Ht, Hl. cbv zeta. split; [exact Hl|exact Ht].
Qed.

Example statistics_line_on_score_101 :
  stats_lines (trace (record_all (calm 0) (ramp 1 100) (fresh sample_args))) = 0%nat /\
  stats_lines (trace (record_all (calm 0) (ramp 1 101) (fresh sample_args))) = 1%nat.
Proof. vm_compute. split; reflexivity. Qed.

(** ** Hand-off and finalization when the collaborators cooperate *)

Lemma delete_recording_disabled (file_path : string) (p : Pass) (w : World) :
  delete_local_recordings (args (self w)) = false ->
  __delete_recording file_path p w = (Returned tt, w).
Proof.
  intros Hd. destruct w as [s r tr]. simpl in Hd.
  unfold __delete_recording, bind, get_self. simpl. rewrite Hd. reflexivity.
Qed.

Lemma upload_file_runs (file_path : string) (p : Pass) (w : World) :
  open_raises p = None ->
  (forall e, snd (smtp_outcome p) = Some e -> send_email_catches e = true) ->
  __upload_file file_path p w =
    ((if delete_local_recordings (args (self w)) then remove_result p else Returned tt),
     mkWorld (self w)
       (if credentials_given (args (self w)) then S (reads w) else reads w)
       (trace w ++ handoff_events (args (self w)) p file_path)).
Proof.
  intros Ho Hs. unfold handoff_events.
  destruct (credentials_given (args (self w))) eqn:Hc.
  - unfold __upload_file. unfold bind at 1. unfold get_self at 1. cbv beta iota.
    unfold credentials_given in Hc. rewrite Hc. unfold when, bind.
    rewrite (@send_email_handled file_path p w Ho Hs).
    destruct (delete_local_recordings (args (self w))) eqn:Hd.
    + rewrite delete_recording_enabled by exact Hd.
      cbn [self reads trace]. now rewrite <- app_assoc.
    + rewrite delete_recording_disabled by exact Hd.
      cbn [self reads trace]. now rewrite app_nil_r.
  - rewrite (@upload_file_without_credentials file_path p w Hc).
    destruct (delete_local_recordings (args (self w))) eqn:Hd.
    + rewrite delete_recording_enabled by exact Hd. reflexivity.
    + rewrite delete_recording_disabled by exact Hd.
      destruct w as [s r tr]. cbn [self reads trace app].
      now rewrite app_nil_r.
Qed.

Lemma write_recording_to_file_completes (p : Pass) (w : World) (start : time) :
  __start_time_of_last_recording (self w) = Some start ->
  collaborators_cooperate p ->
  __write_recording_to_file p w =
    (Returned tt,
     mkWorld (set_start_time_of_last_recording None (set_encoding false (self w)))
       (if credentials_given (args (self w)) then S (reads w) else reads w)
       (trace w ++ closing_events (args (self w)) p start
                ++ handoff_events (args (self w)) p (artifact (args (self w)) p start))).
Proof.
  intros Hs (Hsn & Hst & Ho & Hm & Hr).
  rewrite (@write_recording_to_file_runs p w start Hs Hsn Hst).
  rewrite upload_file_runs by assumption.
  unfold remove_result. rewrite Hr. cbn [self reads trace].
  destruct (delete_local_recordings (args (self w))); now rewrite <- app_assoc.
Qed.

(** Below 2^53 microseconds the test of the cap is the comparison of the
    microseconds. *)
Lemma total_seconds_ge_in_range (p : Pass) (elapsed cap : Z) :
  seconds cap < 2 ^ 53 ->
  total_seconds_ge p elapsed cap = (seconds cap <=? elapsed).
Proof.
  intros H. unfold total_seconds_ge. apply Z.ltb_lt in H. now rewrite H.
Qed.

(** The test of the cap on a session with a cap in that range: one reading
    of the clock, compared with the start time. *)
Lemma is_max_recording_length_exceeded_in_range (p : Pass) (w : World) (start : time) :
  __start_time_of_last_recording (self w) = Some start ->
  0 < max_recording_length_seconds (args (self w)) ->
  cap_in_exact_range (args (self w)) ->
  __is_max_recording_length_exceeded p w =
    (Returned (seconds (max_recording_length_seconds (args (self w)))
               <=? now_at p (reads w) - start),
     mkWorld (self w) (S (reads w)) (trace w)).
Proof.
  intros Hs Hc Hr. destruct w as [s r tr]. cbn [self reads trace] in *.
  apply Z.ltb_lt in Hc.
  unfold __is_max_recording_length_exceeded, bind, get_self, now, ask.
  cbn [self reads trace]. rewrite Hc, Hs.
  now rewrite (total_seconds_ge_in_range p _ _ Hr).
Qed.

Lemma is_max_recording_length_exceeded_below_cap (p : Pass) (w : World) :
  cap_in_exact_range (args (self w)) ->
  cap_not_reached p w ->
  exists n,
    __is_max_recording_length_exceeded p w
      = (Returned false, mkWorld (self w) n (trace w)).
Proof.
  intros Hr Hcap.
  destruct (Z.ltb_spec 0 (max_recording_length_seconds (args (self w)))) as [Hc|Hc].
  - destruct (__start_time_of_last_recording (self w)) as [start|] eqn:Hs.
    + exists (S (reads w)).
      rewrite (is_max_recording_length_exceeded_in_range p w start Hs Hc Hr).
      f_equal. f_equal. apply Z.leb_gt. now apply Hcap.
    + exists (reads w). destruct w as [s r tr]. cbn [self reads trace] in *.
      apply Z.ltb_lt in Hc.
      unfold __is_max_recording_length_exceeded, bind, get_self.
      cbn [self]. now rewrite Hc, Hs.
  - exists (reads w). destruct w as [s r tr]. cbn [self reads trace] in *.
    apply Z.ltb_ge in Hc.
    unfold __is_max_recording_length_exceeded, bind, get_self.
    cbn [self]. now rewrite Hc.
Qed.

(** [stop_branches] when the cap is reached at the next reading of the
    clock. *)
Lemma stop_branches_at_cap (hist_diff : Q) (p : Pass) (w : World) (start : time) :
  __start_time_of_last_recording (self w) = Some start ->
  0 < max_recording_length_seconds (args (self w)) ->
  cap_in_exact_range (args (self w)) ->
  seconds (max_recording_length_seconds (args (self w))) <= now_at p (reads w) - start ->
  stop_branches hist_diff p w =
    __write_recording_to_file p
      (mkWorld (self w) (S (S (reads w)))
         (trace w ++ [Log Info (MaxRecordingTimeExceeded
                                  (now_at p (S (reads w)) - start))])).
Proof.
  intros Hs Hc Hr Hn. unfold stop_branches. unfold bind at 1.
  rewrite (is_max_recording_length_exceeded_in_range p w start Hs Hc Hr).
  apply Z.leb_le in Hn. rewrite Hn.
  unfold log_info, bind, get_self, emit, now. cbn [self reads trace].
  rewrite Hs. reflexivity.
Qed.

(** X8. The cap wins over everything: on a tick that finds a session whose
    length has reached [max_recording_length_seconds] (a cap short of 2^53
    microseconds, where the float test of the code is exact), the session
    is finalized whatever the score, also under motion.  The tick logs the
    elapsed time, takes the snapshot, stops the encoder, hands the artifact
    over once and leaves the detector idle.  The hand-off is the delivery
    attempt, with the line about the sent mail, the line about a handled
    failure, or both when the QUIT fails after the mail was sent, followed
    by the deletion if it is enabled. *)
Theorem cap_ends_session_whatever_the_score (hist_diff : Q) (p : Pass) (w : World)
  (start : time) :
  __encoding (self w) = true ->
  __start_time_of_last_recording (self w) = Some start ->
  0 < max_recording_length_seconds (args (self w)) ->
  cap_in_exact_range (args (self w)) ->
  (forall k, seconds (max_recording_length_seconds (args (self w)))
             <= now_at p k - start) ->
  collaborators_cooperate p ->
  let r := loop_tick hist_diff p w in
  let a := args (self w) in
  fst r = Returned tt /\
  __encoding (self (snd r)) = false /\
  __start_time_of_last_recording (self (snd r)) = None /\
  exists elapsed,
    seconds (max_recording_length_seconds a) <= elapsed /\
    emitted w (snd r) =
      Log Info (MaxRecordingTimeExceeded elapsed)
      :: closing_events a p start ++ handoff_events a p (artifact a p start).
Proof.
  intros He Hs Hc Hr Hn Hco r a. unfold r. clear r.
  destruct (@loop_tick_while_encoding hist_diff p w He) as (n & E).
  rewrite E.
  rewrite (stop_branches_at_cap hist_diff p (mkWorld (self w) n (trace w)) start)
    by (cbn [self reads]; auto).
  rewrite (write_recording_to_file_completes p _ start) by (cbn [self]; auto).
  cbn [fst snd self trace __encoding __start_time_of_last_recording
       set_encoding set_start_time_of_last_recording].
  repeat split.
  exists (now_at p (S n) - start). split; [apply Hn|].
  apply emitted_app. cbn [trace]. fold a. now rewrite <- app_assoc.
Qed.

Lemma calm_cooperates (t : time) : collaborators_cooperate (calm t).
Proof. repeat split; try reflexivity. intros e H. discriminate H. Qed.

Lemma cap_ends_session_whatever_the_score_witness :
  let r := loop_tick 8 (calm (seconds 10)) capped_recording_since_0 in
  fst r = Returned tt /\
  __encoding (self (snd r)) = false /\
  __start_time_of_last_recording (self (snd r)) = None /\
  exists elapsed,
    seconds 10 <= elapsed /\
    emitted capped_recording_since_0 (snd r) =
      Log Info (MaxRecordingTimeExceeded elapsed)
      :: closing_events capped_args (calm (seconds 10)) 0
         ++ handoff_events capped_args (calm (seconds 10))
              (artifact capped_args (calm (seconds 10)) 0).
Proof.
  apply (cap_ends_session_whatever_the_score 8 (calm (seconds 10))
           capped_recording_since_0 0).
  - reflexivity.
  - reflexivity.
  - reflexivity.
  - reflexivity.
  - intros k. vm_compute. discriminate.
  - apply calm_cooperates.
Defined.

(** [stop_branches] below the cap: only the idle gap decides. *)
Lemma stop_branches_idle_timeout (hist_diff : Q) (p : Pass) (w : World) (last : time) :
  __encoding (self w) = true ->
  __time_of_last_motion_detection (self w) = Some last ->
  cap_in_exact_range (args (self w)) ->
  cap_not_reached p w ->
  (forall k, seconds __MAX_TIME_SINCE_LAST_MOTION_DETECTION_SECONDS < now_at p k - last) ->
  exists n,
    stop_branches hist_diff p w =
      __write_recording_to_file p
        (mkWorld (self w) n
           (trace w ++ [Log Info MaxTimeSinceLastMotionExceeded;
                        Log MovementEnd (MotionNoLongerDetected hist_diff)])).
Proof.
  intros He Hl Hr Hcap Hgap.
  destruct (is_max_recording_length_exceeded_below_cap p w Hr Hcap) as (n & E).
  unfold stop_branches. unfold bind at 1. rewrite E. cbv beta iota.
  destruct w as [s r tr]. cbn [self reads trace] in *.
  assert (G : (5000000 <? now_at p n - last) = true) by apply Z.ltb_lt, Hgap.
  unfold __is_max_time_since_last_motion_detection_exceeded, when,
    log_info, log_movement_end, bind, ret, get_self, emit, now.
  repeat first [progress simpl | progress rewrite ?He, ?Hl, ?G].
  eexists. rewrite <- app_assoc. reflexivity.
Qed.

Lemma stop_branches_within_gap (hist_diff : Q) (p : Pass) (w : World) (last : time) :
  __encoding (self w) = true ->
  __time_of_last_motion_detection (self w) = Some last ->
  cap_in_exact_range (args (self w)) ->
  cap_not_reached p w ->
  (forall k, now_at p k - last <= seconds __MAX_TIME_SINCE_LAST_MOTION_DETECTION_SECONDS) ->
  exists n, stop_branches hist_diff p w = (Returned tt, mkWorld (self w) n (trace w)).
Proof.
  intros He Hl Hr Hcap Hgap.
  destruct (is_max_recording_length_exceeded_below_cap p w Hr Hcap) as (n & E).
  unfold stop_branches. unfold bind at 1. rewrite E. cbv beta iota.
  destruct w as [s r tr]. cbn [self reads trace] in *.
  assert (G : (5000000 <? now_at p n - last) = false) by apply Z.ltb_ge, Hgap.
  unfold __is_max_time_since_last_motion_detection_exceeded, when,
    bind, ret, get_self, now.
  repeat first [progress simpl | progress rewrite ?He, ?Hl, ?G].
  eexists. reflexivity.
Qed.

(** X9. Motion ceased: on a tick that finds a session below its cap (a cap
    short of 2^53 microseconds, where the float test of the code is exact),
    with a score at or below the threshold and the last motion more than
    5 seconds ago, the session is finalized.  The tick logs the end of the
    motion, takes the snapshot, stops the encoder, hands the artifact over
    once and leaves the detector idle.  The hand-off is the delivery
    attempt, with the line about the sent mail, the line about a handled
    failure, or both when the QUIT fails after the mail was sent, followed
    by the deletion if it is enabled. *)
Theorem idle_gap_ends_session (hist_diff : Q) (p : Pass) (w : World)
  (start last : time) :
  __encoding (self w) = true ->
  __start_time_of_last_recording (self w) = Some start ->
  __time_of_last_motion_detection (self w) = Some last ->
  (hist_diff <= min_pixel_diff (args (self w)))%Q ->
  cap_in_exact_range (args (self w)) ->
  cap_not_reached p w ->
  (forall k, seconds 5 < now_at p k - last) ->
  collaborators_cooperate p ->
  let r := loop_tick hist_diff p w in
  let a := args (self w) in
  fst r = Returned tt /\
  __encoding (self (snd r)) = false /\
  __start_time_of_last_recording (self (snd r)) = None /\
  emitted w (snd r) =
    [Log Info MaxTimeSinceLastMotionExceeded;
     Log MovementEnd (MotionNoLongerDetected hist_diff)]
    ++ closing_events a p start ++ handoff_events a p (artifact a p start).
Proof.
  intros He Hs Hl _ Hr Hcap Hgap Hco r a. unfold r. clear r.
  destruct (@loop_tick_while_encoding hist_diff p w He) as (n & E).
  rewrite E.
  destruct (stop_branches_idle_timeout hist_diff p (mkWorld (self w) n (trace w)) last)
    as (m & Em); try assumption.
  rewrite Em.
  rewrite (write_recording_to_file_completes p _ start) by (cbn [self]; auto).
  cbn [fst snd self trace __encoding __start_time_of_last_recording
       set_encoding set_start_time_of_last_recording].
  repeat split.
  apply emitted_app. cbn [trace]. fold a. now rewrite <- !app_assoc.
Qed.

Lemma quit_raises_cooperates : collaborators_cooperate (quit_raises SMTPException).
Proof.
  repeat split; try reflexivity. intros e H. cbn in H. injection H as <-. reflexivity.
Qed.

Lemma idle_gap_ends_session_witness :
  let r := loop_tick 0 (quit_raises SMTPException) capped_recording_since_6_before in
  fst r = Returned tt /\
  __encoding (self (snd r)) = false /\
  __start_time_of_last_recording (self (snd r)) = None /\
  emitted capped_recording_since_6_before (snd r) =
    [Log Info MaxTimeSinceLastMotionExceeded;
     Log MovementEnd (MotionNoLongerDetected 0);
     Log Info (WritingSnapshotFile "./recordings/T.jpeg");
     CaptureSnapshot "./recordings/T.jpeg";
     Log Info (WritingFile "./recordings/T.h264");
     OutputStop;
     OpenAttachment "./recordings/T.h264";
     SmtpSend "smtp.gmail.com" 465 (Some "from@example.org"%string)
              (Some "secret"%string) (Some "to@example.org"%string)
              "./recordings/T.h264";
     Log Info (SentEmail "./recordings/T.h264");
     Log Error (FailedToSendEmail "./recordings/T.h264" SMTPException);
     Log Info (DeletingLocalFile "./recordings/T.h264");
     OsRemove "./recordings/T.h264"].
Proof.
  apply (idle_gap_ends_session 0 (quit_raises SMTPException)
           capped_recording_since_6_before (- seconds 6) (- seconds 6)).
  - reflexivity.
  - reflexivity.
  - reflexivity.
  - vm_compute. discriminate.
  - reflexivity.
  - intros start Hs _ k. vm_compute in Hs. injection Hs as <-. reflexivity.
  - intros k. reflexivity.
  - apply quit_raises_cooperates.
Defined.

(** X10. The grace period: on a tick that finds a session below its cap (a
    cap short of 2^53 microseconds, where the float test of the code is
    exact), with a score at or below the threshold and the last motion no
    more than 5 seconds ago (5 seconds exactly included), nothing happens:
    the tick returns, the detector is as it was, and nothing is logged or
    commanded. *)
Theorem quiet_tick_within_idle_gap (hist_diff : Q) (p : Pass) (w : World) (last : time) :
  __encoding (self w) = true ->
  __time_of_last_motion_detection (self w) = Some last ->
  (hist_diff <= min_pixel_diff (args (self w)))%Q ->
  cap_in_exact_range (args (self w)) ->
  cap_not_reached p w ->
  (forall k, now_at p k - last <= seconds 5) ->
  let r := loop_tick hist_diff p w in
  fst r = Returned tt /\ self (snd r) = self w /\ trace (snd r) = trace w.
Proof.
  intros He Hl _ Hr Hcap Hgap r. unfold r. clear r.
  destruct (@loop_tick_while_encoding hist_diff p w He) as (n & E).
  rewrite E.
  destruct (stop_branches_within_gap hist_diff p (mkWorld (self w) n (trace w)) last)
    as (m & Em); try assumption.
  rewrite Em. repeat split.
Qed.

Lemma quiet_tick_within_idle_gap_witness :
  let r := loop_tick 0 (calm (seconds 5)) capped_recording_since_0 in
  fst r = Returned tt /\ self (snd r) = self capped_recording_since_0
  /\ trace (snd r) = trace capped_recording_since_0.
Proof.
  apply (quiet_tick_within_idle_gap 0 (calm (seconds 5)) capped_recording_since_0 0).
  - reflexivity.
  - reflexivity.
  - vm_compute. discriminate.
  - reflexivity.
  - intros start Hs _ k. vm_compute in Hs. injection Hs as <-. reflexivity.
  - intros k. vm_compute. discriminate.
Defined.

(** X11. The threshold is strict: an idle detector with no start time does
    nothing at all on a score at or below [min_pixel_diff], the threshold
    itself included; the tick returns at once, without reading the clock. *)
Theorem idle_tick_at_or_below_threshold (hist_diff : Q) (p : Pass) (w : World) :
  __encoding (self w) = false ->
  __start_time_of_last_recording (self w) = None ->
  (hist_diff <= min_pixel_diff (args (self w)))%Q ->
  loop_tick hist_diff p w = (Returned tt, w).
Proof.
  intros He Hs Hd. apply loop_tick_idle_below; try assumption.
  unfold Qltb. apply Qle_bool_iff in Hd. now rewrite Hd.
Qed.

Lemma idle_tick_at_or_below_threshold_witness :
  loop_tick (36 # 5) (calm 0) (fresh sample_args) = (Returned tt, fresh sample_args).
Proof.
  apply (idle_tick_at_or_below_threshold (36 # 5) (calm 0) (fresh sample_args)).
  - reflexivity.
  - reflexivity.
  - vm_compute. discriminate.
Defined.

(** ** Finalization clears the session or leaves the detector alone *)

Lemma same_self_refl (w : World) : same_self w w.
Proof. reflexivity. Qed.

Lemma same_self_trans (w1 w2 w3 : World) :
  same_self w1 w2 -> same_self w2 w3 -> same_self w1 w3.
Proof. unfold same_self. congruence. Qed.

Lemma same_self_now : stable same_self now.
Proof. intros p w. reflexivity. Qed.

Lemma same_self_emit (e : Event) : stable same_self (emit e).
Proof. intros p w. reflexivity. Qed.

(** One step of a proof of stability for a relation with reflexivity
    [refl] and transitivity [trans]; [prim] settles the steps that are
    particular to the relation. *)
Ltac stable_step refl trans prim :=
  first
    [ solve [prim]
    | apply (stable_ret _ refl)
    | apply (stable_raise _ refl)
    | apply (stable_get_self _ refl)
    | apply (stable_ask _ refl)
    | apply (stable_bind trans); [|intros ?]
    | apply (stable_when refl)
    | apply (stable_try_except trans); [|intros ?]
    | apply (stable_with_exit trans)
    | match goal with
      | |- stable _ (match ?x with _ => _ end) => destruct x
      end ].

Ltac same_self_steps :=
  repeat stable_step same_self_refl same_self_trans
    ltac:(first [apply same_self_now | apply same_self_emit]).

Lemma same_self_write_snapshot_to_file : stable same_self __write_snapshot_to_file.
Proof.
  unfold __write_snapshot_to_file, __create_snapshot, __get_snapshot_file_path,
    log_info, call.
  same_self_steps.
Qed.

Lemma same_self_upload_file (file_path : string) :
  stable same_self (__upload_file file_path).
Proof.
  unfold __upload_file, __send_email, __delete_recording, log_info, log_error, call.
  same_self_steps.
Qed.

Lemma clears_after_stable {A B} (c : M A) (k : A -> M B) :
  stable same_self c ->
  (forall a, clears_session_or_nothing (k a)) ->
  clears_session_or_nothing (bind c k).
Proof.
  intros Hc Hk p w. unfold bind.
  specialize (Hc p w). unfold same_self in Hc.
  destruct (c p w) as [[a|e] w1]; simpl in Hc.
  - specialize (Hk a p w1). destruct (k a p w1) as [[b|e] w2]; now rewrite <- Hc.
  - exact Hc.
Qed.

(** X12. Finalization changes the detector in one way only: when
    [__write_recording_to_file] returns, [__encoding] is false and the start
    time is cleared (everything else, the time of the last motion
    included, is untouched); when it raises, at whatever step, the detector
    is exactly as before, so the session is still on and the next tick will
    try again. *)
Theorem finalization_clears_session_or_nothing (p : Pass) (w : World) :
  match __write_recording_to_file p w with
  | (Returned _, w') =>
      self w' = set_start_time_of_last_recording None (set_encoding false (self w))
  | (Raised _, w') => self w' = self w
  end.
Proof.
  revert p w. change (clears_session_or_nothing __write_recording_to_file).
  unfold __write_recording_to_file.
  apply clears_after_stable; [apply same_self_write_snapshot_to_file|intros _].
  apply clears_after_stable;
    [unfold __get_recording_file_path; same_self_steps|intros file_path].
  apply clears_after_stable;
    [unfold __get_snapshot_file_path; same_self_steps|intros snapshot_path].
  apply clears_after_stable; [unfold log_info; same_self_steps|intros _].
  apply clears_after_stable; [unfold call; same_self_steps|intros _].
  apply clears_after_stable; [same_self_steps|intros s].
  apply clears_after_stable;
    [destruct (snapshot_only (args s)); apply same_self_upload_file|intros _].
  intros p w. reflexivity.
Qed.

(** ** What the loop never does *)

Section EmitsOnly.

Variable C : Args -> bool.
Variable P : Event -> bool.

Lemma emits_only_refl (w : World) : emits_only_when C P w w.
Proof.
  split; [reflexivity|]. intros _. exists []. now rewrite app_nil_r.
Qed.

Lemma emits_only_trans (w1 w2 w3 : World) :
  emits_only_when C P w1 w2 -> emits_only_when C P w2 w3 -> emits_only_when C P w1 w3.
Proof.
  intros (A1 & H1) (A2 & H2). split; [congruence|]. intros Hc.
  destruct (H1 Hc) as (e1 & T1 & F1).
  destruct H2 as (e2 & T2 & F2); [now rewrite A1|].
  exists (e1 ++ e2). split.
  - now rewrite T2, T1, app_assoc.
  - rewrite forallb_app, F1, F2. reflexivity.
Qed.

Lemma emits_only_now : stable (emits_only_when C P) now.
Proof.
  intros p w. split; [reflexivity|]. intros _. exists []. simpl. now rewrite app_nil_r.
Qed.

Lemma emits_only_emit (e : Event) : P e = true -> stable (emits_only_when C P) (emit e).
Proof.
  intros He p w. split; [reflexivity|]. intros _. exists [e]. simpl.
  now rewrite He.
Qed.

Lemma emits_only_modify (f : MotionDetector -> MotionDetector) :
  (forall s, args (f s) = args s) -> stable (emits_only_when C P) (modify_self f).
Proof.
  intros Hf p w. split; [apply Hf|]. intros _. exists []. simpl. now rewrite app_nil_r.
Qed.

(** A computation that leaves the detector alone and, under [C], adds only
    events of [P]. *)
Lemma emits_only_from_run {A} (c : M A) :
  stable same_self c ->
  (forall p w, C (args (self w)) = true ->
     exists evs, trace (snd (c p w)) = trace w ++ evs /\ forallb P evs = true) ->
  stable (emits_only_when C P) c.
Proof.
  intros Hs Hr p w. split.
  - now rewrite (Hs p w).
  - intros Hc. now apply Hr.
Qed.

Lemma emits_only_loop (passes : list Pass) :
  stable (emits_only_when C P) (fun p w => (Returned tt, begin_pass w)) ->
  (forall previous_frame, stable (emits_only_when C P) (loop_pass previous_frame)) ->
  forall previous_frame w,
    emits_only_when C P w (snd (__loop passes previous_frame w)).
Proof.
  intros Hb Hp. induction passes as [|p rest IH]; intros previous_frame w; simpl.
  - apply emits_only_refl.
  - specialize (Hp previous_frame p (begin_pass w)).
    specialize (Hb p w). simpl in Hb.
    destruct (loop_pass previous_frame p (begin_pass w)) as [[f|e] w1]; simpl in Hp.
    + eapply emits_only_trans; [exact Hb|].
      eapply emits_only_trans; [exact Hp|apply IH].
    + eapply emits_only_trans; [exact Hb|exact Hp].
Qed.

Lemma emits_only_begin_pass :
  stable (emits_only_when C P) (fun p w => (Returned tt, begin_pass w)).
Proof.
  intros p w. split; [reflexivity|]. intros _. exists []. simpl. now rewrite app_nil_r.
Qed.

End EmitsOnly.

Ltac emits_only_steps C P special :=
  repeat stable_step (emits_only_refl C P) (emits_only_trans C P)
    ltac:(first [ special
                | apply emits_only_now
                | apply emits_only_emit; reflexivity
                | apply emits_only_modify; intros ?; reflexivity ]).

(** The whole of one pass, given the hand-off. *)
Ltac emits_only_pass C P upload :=
  unfold loop_pass, loop_body, capture, slice_reshape, on_score, store_diff_history,
    display_diff_stats, log_at_interval, loop_tick, start_condition, start_branch,
    stop_branches, and_then, not_, __is_max_recording_length_exceeded,
    __is_max_time_since_last_motion_detection_exceeded, __start_recording,
    __write_recording_to_file, __write_snapshot_to_file, __create_snapshot,
    __get_recording_file_path, __get_snapshot_file_path, call,
    log_info, log_error, log_debug_as_info, log_movement_start, log_movement_end;
  emits_only_steps C P ltac:(apply upload).

Lemma send_email_never_removes (C : Args -> bool) (file_path : string) :
  stable (emits_only_when C is_not_remove) (__send_email file_path).
Proof.
  unfold __send_email, log_info, log_error, call.
  emits_only_steps C is_not_remove fail.
Qed.

Lemma delete_recording_never_removes_when_disabled (file_path : string) :
  stable (emits_only_when deletion_disabled is_not_remove) (__delete_recording file_path).
Proof.
  intros p w. unfold deletion_disabled.
  destruct (delete_local_recordings (args (self w))) eqn:Hd.
  - rewrite delete_recording_enabled by exact Hd. split; [reflexivity|].
    simpl. rewrite Hd. discriminate.
  - rewrite delete_recording_disabled by exact Hd. apply emits_only_refl.
Qed.

Lemma upload_file_never_removes_when_disabled (file_path : string) :
  stable (emits_only_when deletion_disabled is_not_remove) (__upload_file file_path).
Proof.
  unfold __upload_file.
  emits_only_steps deletion_disabled is_not_remove
    ltac:(first [ apply send_email_never_removes
                | apply delete_recording_never_removes_when_disabled ]).
Qed.

Lemma loop_pass_never_removes_when_disabled (previous_frame : option Frame) :
  stable (emits_only_when deletion_disabled is_not_remove) (loop_pass previous_frame).
Proof.
  emits_only_pass deletion_disabled is_not_remove upload_file_never_removes_when_disabled.
Qed.

Lemma forallb_emitted (P : Event -> bool) (w w' : World) (evs : list Event) :
  trace w' = trace w ++ evs -> forallb P evs = true ->
  forall e, In e (emitted w w') -> P e = true.
Proof.
  intros Ht Hf e He. rewrite (emitted_app w w' evs Ht) in He.
  rewrite forallb_forall in Hf. now apply Hf.
Qed.

(** X13. Without [--delete-local-recordings] the loop never removes a file:
    over any number of passes, with any frames, any clock and any failure
    of the camera, the encoder or the mail transport, no [os.remove] is
    ever requested. *)
Theorem loop_never_removes_when_deletion_disabled (passes : list Pass)
  (previous_frame : option Frame) (w : World) :
  delete_local_recordings (args (self w)) = false ->
  forall path, ~ In (OsRemove path) (emitted w (snd (__loop passes previous_frame w))).
Proof.
  intros Hd path Hin.
  destruct (emits_only_loop deletion_disabled is_not_remove passes
              (emits_only_begin_pass _ _) loop_pass_never_removes_when_disabled
              previous_frame w) as (_ & H).
  destruct H as (evs & Ht & Hf); [unfold deletion_disabled; now rewrite Hd|].
  pose proof (forallb_emitted is_not_remove w _ evs Ht Hf _ Hin) as Hp.
  discriminate Hp.
Qed.

Lemma delete_recording_never_mails (C : Args -> bool) (file_path : string) :
  stable (emits_only_when C is_not_mail) (__delete_recording file_path).
Proof.
  unfold __delete_recording, log_info, call.
  emits_only_steps C is_not_mail fail.
Qed.

Lemma upload_file_never_mails_without_credentials (file_path : string) :
  stable (emits_only_when credentials_missing is_not_mail) (__upload_file file_path).
Proof.
  intros p w. split.
  - now rewrite (same_self_upload_file file_path p w).
  - unfold credentials_missing. intros Hc. apply negb_true_iff in Hc.
    rewrite upload_file_without_credentials by exact Hc.
    destruct (delete_recording_never_mails (fun _ => true) file_path p w) as (_ & H).
    now apply H.
Qed.

Lemma loop_pass_never_mails_without_credentials (previous_frame : option Frame) :
  stable (emits_only_when credentials_missing is_not_mail) (loop_pass previous_frame).
Proof.
  emits_only_pass credentials_missing is_not_mail
    upload_file_never_mails_without_credentials.
Qed.

(** X14. Unless the user name, the recipient and the password are all
    given (and not empty), the loop never touches the mail: over any number
    of passes and whatever happens in them, no attachment is opened and
    nothing is sent. *)
Theorem loop_never_mails_without_credentials (passes : list Pass)
  (previous_frame : option Frame) (w : World) :
  credentials_given (args (self w)) = false ->
  forall e, In e (emitted w (snd (__loop passes previous_frame w))) ->
    is_not_mail e = true.
Proof.
  intros Hc e Hin.
  destruct (emits_only_loop credentials_missing is_not_mail passes
              (emits_only_begin_pass _ _) loop_pass_never_mails_without_credentials
              previous_frame w) as (_ & H).
  destruct H as (evs & Ht & Hf); [unfold credentials_missing; now rewrite Hc|].
  exact (forallb_emitted is_not_mail w _ evs Ht Hf e Hin).
Qed.

Lemma loop_never_removes_when_deletion_disabled_witness :
  ~ In (OsRemove "./recordings/T.h264")
       (emitted (fresh tiny_args)
          (snd (__loop [camera_sees dark; camera_sees bright] None (fresh tiny_args)))).
Proof.
  apply (loop_never_removes_when_deletion_disabled
           [camera_sees dark; camera_sees bright] None (fresh tiny_args)).
  reflexivity.
Defined.

Lemma loop_never_mails_without_credentials_witness :
  is_not_mail (CaptureBuffer "lores") = true.
Proof.
  apply (loop_never_mails_without_credentials
           [camera_sees dark; camera_sees bright] None (fresh tiny_args)).
  - reflexivity.
  - vm_compute. left. reflexivity.
Defined.

(** ** A recording always has its start time *)

Lemma keeps_session_start_refl (w : World) : keeps_session_start w w.
Proof. intros H. exact H. Qed.

Lemma keeps_session_start_trans (w1 w2 w3 : World) :
  keeps_session_start w1 w2 -> keeps_session_start w2 w3 -> keeps_session_start w1 w3.
Proof. unfold keeps_session_start. auto. Qed.

Lemma keeps_start_now : stable keeps_session_start now.
Proof. intros p w H. exact H. Qed.

Lemma keeps_start_emit (e : Event) : stable keeps_session_start (emit e).
Proof. intros p w H. exact H. Qed.

Lemma keeps_start_modify (f : MotionDetector -> MotionDetector) :
  (forall s, session_has_start s -> session_has_start (f s)) ->
  stable keeps_session_start (modify_self f).
Proof. intros Hf p w H. apply Hf, H. Qed.

(** [__start_recording] sets [__encoding] only after it has read the start
    time to name the file. *)
Lemma keeps_start_start_recording : stable keeps_session_start __start_recording.
Proof.
  intros p w H. destruct w as [s r tr]. unfold session_has_start in *. simpl in H.
  unfold __start_recording, __get_recording_file_path, call,
    bind, ret, raise, get_self, modify_self, emit, ask.
  simpl.
  destruct (__start_time_of_last_recording s) as [start|] eqn:Hs; simpl;
    [|rewrite Hs; exact H].
  destruct (fileoutput_raises p); simpl; [rewrite Hs; exact H|].
  destruct (output_start_raises p); simpl; [rewrite Hs; exact H|].
  rewrite Hs. discriminate.
Qed.

(** The end of finalization: [__encoding] goes first, the start time
    second. *)
Lemma keeps_start_clear_session :
  stable keeps_session_start
    (modify_self (set_encoding false) ;;;
     modify_self (set_start_time_of_last_recording None)).
Proof. intros p w _. unfold session_has_start. simpl. discriminate. Qed.

Ltac keeps_start_steps :=
  repeat stable_step keeps_session_start_refl keeps_session_start_trans
    ltac:(first [ apply keeps_start_start_recording
                | apply keeps_start_clear_session
                | apply keeps_start_now
                | apply keeps_start_emit
                | apply keeps_start_modify; unfold session_has_start; intros ? ?;
                  simpl; solve [assumption | discriminate] ]).

Lemma keeps_start_loop_pass (previous_frame : option Frame) :
  stable keeps_session_start (loop_pass previous_frame).
Proof.
  unfold loop_pass, loop_body, capture, slice_reshape, on_score, store_diff_history,
    display_diff_stats, log_at_interval, loop_tick, start_condition, start_branch,
    stop_branches, and_then, not_, __is_max_recording_length_exceeded,
    __is_max_time_since_last_motion_detection_exceeded,
    __write_recording_to_file, __write_snapshot_to_file, __create_snapshot,
    __upload_file, __send_email, __delete_recording,
    __get_recording_file_path, __get_snapshot_file_path, call,
    log_info, log_error, log_debug_as_info, log_movement_start, log_movement_end.
  keeps_start_steps.
Qed.

(** X15. Whenever [__encoding] is true the start time of the recording is
    set.  This holds for a new detector and is kept by every pass of the
    loop, whatever the frames, the clock and the failures, so the names of
    the video and the snapshot can always be built when a session is
    finalized. *)
Theorem recording_always_has_start_time (passes : list Pass)
  (previous_frame : option Frame) (w : World) :
  session_has_start (self w) ->
  session_has_start (self (snd (__loop passes previous_frame w))).
Proof.
  revert previous_frame w.
  induction passes as [|p rest IH]; intros previous_frame w Hw; simpl.
  - exact Hw.
  - pose proof (keeps_start_loop_pass previous_frame p (begin_pass w) Hw) as H1.
    destruct (loop_pass previous_frame p (begin_pass w)) as [[f|e] w1]; simpl in H1.
    + now apply IH.
    + exact H1.
Qed.

Lemma recording_always_has_start_time_witness :
  session_has_start
    (self (snd (__loop [camera_sees dark; camera_sees bright] None (fresh eager_args)))).
Proof.
  apply (recording_always_has_start_time
           [camera_sees dark; camera_sees bright] None (fresh eager_args)).
  intros H. discriminate H.
Defined.

(** ** File names *)

Lemma string_app_inv_head (s a b : string) :
  (s ++ a)%string = (s ++ b)%string -> a = b.
Proof.
  induction s as [|c s IH]; simpl; intros H.
  - exact H.
  - injection H as H. now apply IH.
Qed.

(** X16. The video and the snapshot of a session never share a name: with a
    start time set, both paths are built without error from the recording
    directory and that start time, and they differ. *)
Theorem session_files_are_distinct (p : Pass) (w : World) (start : time) :
  __start_time_of_last_recording (self w) = Some start ->
  exists video snapshot,
    __get_recording_file_path p w = (Returned video, w) /\
    __get_snapshot_file_path p w = (Returned snapshot, w) /\
    video <> snapshot.
Proof.
  intros Hs.
  exists (recording_dir (args (self w)) ++ isoformat p start ++ ".h264")%string.
  exists (recording_dir (args (self w)) ++ isoformat p start ++ ".jpeg")%string.
  unfold __get_recording_file_path, __get_snapshot_file_path, bind, get_self, ask, ret.
  rewrite Hs. repeat split.
  intros H. apply string_app_inv_head, string_app_inv_head in H. discriminate H.
Qed.

Lemma session_files_are_distinct_witness :
  exists video snapshot,
    __get_recording_file_path (calm 0) recording_since_0
      = (Returned video, recording_since_0) /\
    __get_snapshot_file_path (calm 0) recording_since_0
      = (Returned snapshot, recording_since_0) /\
    video <> snapshot.
Proof.
  apply (session_files_are_distinct (calm 0) recording_since_0 0). reflexivity.
Defined.

(** X17. Without a start time nothing is started and nothing is finalized:
    [__start_recording] and [__write_recording_to_file] both raise
    [AttributeError] on building the file name, before any command to the
    camera or the encoder, and leave the world as it was. *)
Theorem no_start_time_no_command (p : Pass) (w : World) :
  __start_time_of_last_recording (self w) = None ->
  __start_recording p w = (Raised AttributeError, w) /\
  __write_recording_to_file p w = (Raised AttributeError, w).
Proof.
  intros Hs. destruct w as [s r tr]. simpl in Hs.
  unfold __start_recording, __write_recording_to_file, __write_snapshot_to_file,
    __get_recording_file_path, __get_snapshot_file_path, bind, get_self, raise.
  simpl. rewrite Hs. split; reflexivity.
Qed.

Lemma no_start_time_no_command_witness :
  __start_recording (calm 0) (fresh sample_args)
    = (Raised AttributeError, fresh sample_args) /\
  __write_recording_to_file (calm 0) (fresh sample_args)
    = (Raised AttributeError, fresh sample_args).
Proof.
  apply (no_start_time_no_command (calm 0) (fresh sample_args)). reflexivity.
Defined.

(** ** Frames *)

Lemma slice_reshape_enough (w h : nat) (buf : buffer) (p : Pass) (wd : World) :
  (w * h <= List.length buf)%nat ->
  slice_reshape w h buf p wd = (Returned (mkFrame h w (firstn (w * h) buf)), wd).
Proof.
  intros H. unfold slice_reshape.
  rewrite firstn_length_le by exact H.
  rewrite (Nat.mul_comm h w), Nat.eqb_refl. reflexivity.
Qed.

Lemma slice_reshape_short (w h : nat) (buf : buffer) (p : Pass) (wd : World) :
  (List.length buf < w * h)%nat ->
  slice_reshape w h buf p wd = (Raised ValueError, wd).
Proof.
  intros H. unfold slice_reshape.
  rewrite firstn_all2 by lia.
  destruct (Nat.eqb_spec (List.length buf) (h * w)); [lia|reflexivity].
Qed.

Lemma loop_body_to_reshape (previous_frame : option Frame) (p : Pass) (w : World)
  (buf : buffer) :
  capture_buffer p = inr buf ->
  loop_body previous_frame p w =
    bind (slice_reshape (lores_width (args (self w))) (lores_height (args (self w))) buf)
      (fun current_frame =>
         match previous_frame with
         | Some previous =>
             on_score (__calculate_histogram_difference current_frame previous)
         | None => ret tt
         end ;;;
         ret (Some current_frame))
      p (mkWorld (self w) (reads w) (trace w ++ [CaptureBuffer (stream_name (args (self w)))])).
Proof.
  intros Hc. destruct w as [s r tr].
  unfold loop_body, capture, stream_name.
  unfold bind at 1. unfold get_self at 1. cbv beta iota zeta.
  unfold bind at 1. unfold bind at 1. unfold emit at 1. cbv beta iota.
  unfold bind at 1. unfold ask at 1. cbv beta iota. rewrite Hc.
  reflexivity.
Qed.

(** X18. A buffer with fewer than width times height bytes makes no frame:
    the reshape raises [ValueError], the pass logs it and ends normally, the
    loop keeps the previous frame it had, and the detector is untouched. *)
Theorem short_buffer_is_logged_and_skipped (previous_frame : option Frame) (p : Pass)
  (w : World) (buf : buffer) :
  capture_buffer p = inr buf ->
  (List.length buf < lores_width (args (self w)) * lores_height (args (self w)))%nat ->
  loop_pass previous_frame p w =
    (Returned previous_frame,
     mkWorld (self w) (reads w)
       (trace w ++ [CaptureBuffer (stream_name (args (self w)));
                    Log Error (LoopError ValueError)])).
Proof.
  intros Hc Hl. unfold loop_pass, try_except.
  rewrite (loop_body_to_reshape previous_frame p w buf Hc).
  unfold bind at 1. rewrite slice_reshape_short by exact Hl.
  unfold log_error, bind, emit, ret. simpl. now rewrite <- app_assoc.
Qed.

Lemma short_buffer_is_logged_and_skipped_witness :
  loop_pass (Some dark) (camera_delivers [x00; x00; x00]%byte) (fresh tiny_args) =
    (Returned (Some dark),
     mkWorld (__init__ tiny_args) 0
       [CaptureBuffer "lores"; Log Error (LoopError ValueError)]).
Proof.
  apply (short_buffer_is_logged_and_skipped (Some dark)
           (camera_delivers [x00; x00; x00]%byte) (fresh tiny_args)
           [x00; x00; x00]%byte).
  - reflexivity.
  - simpl. lia.
Defined.

(** X19. The first pass only sets the baseline: with no previous frame and
    a buffer of at least width times height bytes, the pass asks the camera
    for the buffer and nothing else; no score is computed or stored, the
    detector is untouched, and the frame kept for the next pass is the first
    width times height bytes of the buffer (what follows them, such as the
    chroma planes, is dropped). *)
Theorem first_pass_only_sets_baseline (p : Pass) (w : World) (buf : buffer) :
  capture_buffer p = inr buf ->
  (lores_width (args (self w)) * lores_height (args (self w)) <= List.length buf)%nat ->
  loop_pass None p w =
    (Returned (Some (mkFrame (lores_height (args (self w))) (lores_width (args (self w)))
                       (firstn (lores_width (args (self w)) * lores_height (args (self w)))
                               buf))),
     mkWorld (self w) (reads w)
       (trace w ++ [CaptureBuffer (stream_name (args (self w)))])).
Proof.
  intros Hc Hl. unfold loop_pass, try_except.
  rewrite (loop_body_to_reshape None p w buf Hc).
  unfold bind at 1. rewrite slice_reshape_enough by exact Hl.
  reflexivity.
Qed.

Lemma first_pass_only_sets_baseline_witness :
  loop_pass None (camera_delivers [x00; x00; x00; x00; x80; x80]%byte) (fresh tiny_args) =
    (Returned (Some dark),
     mkWorld (__init__ tiny_args) 0 [CaptureBuffer "lores"]).
Proof.
  apply (first_pass_only_sets_baseline
           (camera_delivers [x00; x00; x00; x00; x80; x80]%byte) (fresh tiny_args)
           [x00; x00; x00; x00; x80; x80]%byte).
  - reflexivity.
  - simpl. lia.
Defined.

Lemma zero_score_not_above (m : Q) :
  (0 <= m)%Q -> Qltb m (inject_Z 0 / inject_Z 256) = false.
Proof.
  intros H. unfold Qltb. apply negb_false_iff, Qle_bool_iff.
  unfold Qle in *. simpl in *. lia.
Qed.

(** X20. A still scene never starts a recording: when the new frame holds
    the samples of the previous one (in the same places or not) and the
    threshold is not negative, an idle detector stays idle.  The pass
    returns the new frame, leaves the session fields alone and gives the
    encoder no start command; it only stores the score. *)
Theorem still_scene_never_starts_recording (previous : Frame) (p : Pass) (w : World)
  (buf : buffer) :
  capture_buffer p = inr buf ->
  (lores_width (args (self w)) * lores_height (args (self w)) <= List.length buf)%nat ->
  Permutation (pixels previous)
    (firstn (lores_width (args (self w)) * lores_height (args (self w))) buf) ->
  __encoding (self w) = false ->
  __start_time_of_last_recording (self w) = None ->
  (0 <= min_pixel_diff (args (self w)))%Q ->
  let r := loop_pass (Some previous) p w in
  fst r = Returned
            (Some (mkFrame (lores_height (args (self w))) (lores_width (args (self w)))
                     (firstn (lores_width (args (self w)) * lores_height (args (self w)))
                             buf))) /\
  same_session (self w) (self (snd r)) /\
  (forall e, In e (emitted w (snd r)) -> is_start_command e = false).
Proof.
  intros Hc Hl Hperm He Hs Hmin r.
  set (current := mkFrame (lores_height (args (self w))) (lores_width (args (self w)))
                    (firstn (lores_width (args (self w)) * lores_height (args (self w)))
                            buf)).
  assert (Hrun : exists s' evs,
             r = (Returned (Some current),
                  mkWorld s' (reads w)
                    (trace w ++ [CaptureBuffer (stream_name (args (self w)))] ++ evs)) /\
             same_session (self w) s' /\ Forall is_debug_log evs).
  { unfold r, loop_pass, try_except.
    rewrite (loop_body_to_reshape (Some previous) p w buf Hc).
    unfold bind at 1. rewrite slice_reshape_enough by exact Hl. fold current.
    assert (Hd : __calculate_histogram_difference current previous
                 = (inject_Z 0 / inject_Z 256)%Q).
    { rewrite difference_is_distance_over_bins.
      rewrite (histogram_of_permutation previous current Hperm).
      now rewrite hist_distance_diag. }
    rewrite Hd. unfold bind at 1. unfold on_score. unfold bind at 1.
    set (w1 := mkWorld (self w) (reads w)
                 (trace w ++ [CaptureBuffer (stream_name (args (self w)))])).
    destruct (store_diff_history_returns (inject_Z 0 / inject_Z 256) p w1)
      as (s' & evs & E & Hsame & _ & _ & Hdebug & _).
    rewrite E. destruct Hsame as (Sa & Se & Ss & Sl). cbn [w1 self reads trace] in *.
    exists s', evs.
    rewrite loop_tick_idle_below.
    - unfold ret. cbv beta iota. rewrite <- app_assoc.
      split; [reflexivity|]. split; [|exact Hdebug]. repeat split; assumption.
    - cbn [self]. congruence.
    - cbn [self]. congruence.
    - cbn [self]. rewrite Sa. now apply zero_score_not_above. }
  destruct Hrun as (s' & evs & Er & Hsame & Hdebug). rewrite Er.
  cbn [fst snd self]. split; [reflexivity|]. split; [exact Hsame|].
  intros e Hin.
  rewrite (emitted_app w (mkWorld s' (reads w) _)
             ([CaptureBuffer (stream_name (args (self w)))] ++ evs)) in Hin
    by reflexivity.
  destruct Hin as [<-|Hin]; [reflexivity|].
  rewrite Forall_forall in Hdebug. destruct (Hdebug e Hin) as (m & ->). reflexivity.
Qed.

Lemma still_scene_never_starts_recording_witness :
  let r := loop_pass (Some dark) (camera_sees dark) (fresh eager_args) in
  fst r = Returned (Some dark) /\
  same_session (self (fresh eager_args)) (self (snd r)) /\
  (forall e, In e (emitted (fresh eager_args) (snd r)) -> is_start_command e = false).
Proof.
  apply (still_scene_never_starts_recording dark (camera_sees dark) (fresh eager_args)
           (pixels dark)).
  - reflexivity.
  - simpl. lia.
  - apply Permutation_refl.
  - reflexivity.
  - reflexivity.
  - vm_compute. discriminate.
Defined.

(** ** Zoom *)

(** X21. The crop that [__set_zoom_factor] sets is centred: for a current
    crop of four entries and a sensor of two, the new crop is the two
    offsets followed by the two scaled sizes, and along each axis where the
    scaled size fits the sensor the window lies on the sensor, the margin
    after it being the margin before it or one more. *)
Theorem zoomed_crop_is_centred (scale : Z -> Z) (x y cw ch rw rh : Z) :
  let crop := zoomed_scaler_crop scale [x; y; cw; ch] [rw; rh] in
  let ox := (rw - scale cw) / 2 in
  let oy := (rh - scale ch) / 2 in
  crop = [ox; oy; scale cw; scale ch] /\
  (0 <= scale cw <= rw ->
   0 <= ox /\ ox + scale cw <= rw /\ 0 <= (rw - (ox + scale cw)) - ox <= 1) /\
  (0 <= scale ch <= rh ->
   0 <= oy /\ oy + scale ch <= rh /\ 0 <= (rh - (oy + scale ch)) - oy <= 1).
Proof.
  cbv zeta. split; [reflexivity|].
  split; intros H; Z.to_euclidean_division_equations; lia.
Qed.

Lemma zoomed_crop_is_centred_witness :
  zoomed_scaler_crop (fun s => s / 2) [0; 0; 3280; 2464] [3280; 2464]
    = [820; 616; 1640; 1232] /\
  0 <= 820 /\ 820 + 1640 <= 3280 /\ 0 <= (3280 - (820 + 1640)) - 820 <= 1.
Proof.
  destruct (zoomed_crop_is_centred (fun s => s / 2) 0 0 3280 2464 3280 2464)
    as (Hc & Hx & _).
  split; [exact Hc|]. apply Hx. vm_compute. split; discriminate.
Defined.

(** ** Which file is handed over *)

(** X22. Finalization hands over one file only.  When the collaborators
    cooperate, every event of [__write_recording_to_file] that opens, sends
    or removes a file names the artifact: the snapshot in snapshot-only
    mode, the video otherwise.  The other file of the session is neither
    sent nor removed. *)
Theorem finalization_hands_over_the_artifact_only (p : Pass) (w : World) (start : time) :
  __start_time_of_last_recording (self w) = Some start ->
  collaborators_cooperate p ->
  let a := args (self w) in
  forall e f,
    In e (emitted w (snd (__write_recording_to_file p w))) ->
    file_of e = Some f ->
    f = (recording_dir a ++ isoformat p start
         ++ (if snapshot_only a then ".jpeg" else ".h264"))%string.
Proof.
  intros Hs Hco a e f Hin Hf.
  rewrite (write_recording_to_file_completes p w start Hs Hco) in Hin.
  cbn [snd] in Hin.
  erewrite emitted_app in Hin by (cbn [trace]; reflexivity).
  fold a in Hin.
  assert (Ha : artifact a p start
               = (recording_dir a ++ isoformat p start
                  ++ (if snapshot_only a then ".jpeg" else ".h264"))%string).
  { unfold artifact. destruct (snapshot_only a); reflexivity. }
  rewrite <- Ha. clear Ha.
  unfold closing_events, handoff_events, attempt_events, deletion_events in Hin.
  destruct (credentials_given a), (delete_local_recordings a),
    (fst (smtp_outcome p)), (snd (smtp_outcome p));
    simpl in Hin;
    repeat (destruct Hin as [<-|Hin]; [simpl in Hf; congruence|]);
    contradiction.
Qed.

Lemma finalization_hands_over_the_artifact_only_witness :
  "./recordings/T.h264"%string =
    (recording_dir sample_args ++ isoformat (calm (seconds 6)) 0
     ++ (if snapshot_only sample_args then ".jpeg" else ".h264"))%string.
Proof.
  apply (finalization_hands_over_the_artifact_only (calm (seconds 6)) recording_since_0 0
           eq_refl (calm_cooperates (seconds 6))
           (OsRemove "./recordings/T.h264") "./recordings/T.h264"%string).
  - vm_compute. do 8 right. left. reflexivity.
  - reflexivity.
Defined.

(** ** A start that fails *)

(** X23. When the encoder refuses the start, no session is opened: an idle
    detector that sees a score above the threshold sets the start time,
    logs it and asks for the file; if that raises, the tick raises the same
    exception with [__encoding] still false, the time of the last motion
    untouched and [output.start()] never called. *)
Theorem refused_start_opens_no_session (hist_diff : Q) (p : Pass) (w : World) (e : exn) :
  __encoding (self w) = false ->
  __start_time_of_last_recording (self w) = None ->
  Qltb (min_pixel_diff (args (self w))) hist_diff = true ->
  fileoutput_raises p = Some e ->
  let t0 := now_at p (reads w) in
  loop_tick hist_diff p w =
    (Raised e,
     mkWorld (set_start_time_of_last_recording (Some t0) (self w))
       (S (reads w))
       (trace w ++
          [Log Info (StartingNewRecording t0);
           SetFileOutput (recording_dir (args (self w)) ++ isoformat p t0 ++ ".h264")%string])).
Proof.
  intros He Hs Hd Hf t0. destruct w as [s r tr]. simpl in *.
  run_tick. exec ltac:(rewrite ?Hd, ?Hs, ?He, ?Hf);
    unfold set_start_time_of_last_recording, raise; simpl;
    repeat rewrite <- app_assoc; reflexivity.
Qed.

Lemma refused_start_opens_no_session_witness :
  loop_tick 8 (encoder_refuses OSError) (fresh sample_args) =
    (Raised OSError,
     mkWorld (set_start_time_of_last_recording (Some 0) (__init__ sample_args)) 1
       [Log Info (StartingNewRecording 0); SetFileOutput "./recordings/T.h264"]).
Proof.
  apply (refused_start_opens_no_session 8 (encoder_refuses OSError) (fresh sample_args)
           OSError); reflexivity.
Defined.
